(** * expo-razorpay: the checkout controller and the WebView bridge

    A shallow embedding of
      - [src/types/index.ts]               (hook [useRazorpay]: [cleanup],
                                            [openCheckout], [closeCheckout],
                                            [RazorpayUI]),
      - [src/components/razorpayCheckout.tsx] ([optionsWithoutHandler], the
                                            page script, [handleMessage],
                                            [handleNavigation]).

    Conventions of the embedding.
      - A JavaScript value is a [jsval]; an object is an association list in
        insertion order.  Numbers are restricted to integers.
      - JSON text that crosses the message channel is represented by its
        syntax tree [json]; [JSON_stringify] and [JSON_parse] follow
        ECMAScript on that representation.  The options text pasted into the
        page is written out ([JSON_text], strings as byte sequences), the
        WebView reads the inline script with the tokenizer of the HTML
        standard ([Html]), and the script runs when it is read whole.
      - A closure created by a render reads the hook state of that render
        (its snapshot) and emits an ordered list of [Effect]s: calls of the
        state setters, calls of host callbacks, [setTimeout], calls of
        [Linking.openURL] and of [console.error].
      - The machine [World] commits the setters of one event before the next
        event is dispatched (React re-renders in between).  The component is
        always driven by the closures of the latest render; the host may call
        the [openCheckout] and [closeCheckout] of the latest render or ones
        it kept from an earlier render (an async handler, a memoized
        callback), and a kept closure reads the state of its own render.
        [KeptOpen r] and [KeptClose r] stand for such calls; [r] ranges over
        all states, the states of earlier renders among them, so what is
        proved for every [r] holds of every kept closure, and the examples
        use states that did occur.
      - Host callbacks are opaque: an invocation is recorded in [hostLog],
        and a host callback returns normally.  A call of the hook from
        inside a host callback is a call through a kept closure.
      - [setTimeout(f, 100)] runs [f] as soon as the clock has advanced by
        100; the clock advances with [Tick] events only. *)

From Stdlib Require Import List String Ascii Bool Arith ZArith Lia DecimalString.
Import ListNotations.
Local Open Scope string_scope.
Local Open Scope list_scope.
Set Warnings "-register-all".

(* ------------------------------------------------------------------ *)
(** ** JavaScript values and JSON *)

(** Functions that can occur as values.  [HostFn n] is a function owned by
    the host application; the other three are the functions the page script
    of [razorpayCheckout.tsx] creates. *)
Inductive fnref : Type :=
| HostFn (n : nat)
| PostSuccess      (* function (response) { postMessage({type:'PAYMENT_SUCCESS', data: response}) } *)
| PostClosed       (* function () { postMessage({type:'PAYMENT_CLOSED'}) } *)
| PostFailed.      (* function (response) { postMessage({type:'PAYMENT_FAILED', error: response.error}) } *)

Inductive jsval : Type :=
| VUndefined
| VNull
| VBool (b : bool)
| VNum (n : Z)
| VStr (s : string)
| VFun (f : fnref)
| VArr (items : list jsval)
| VObj (fields : list (string * jsval)).

Inductive json : Type :=
| JNull
| JBool (b : bool)
| JNum (n : Z)
| JStr (s : string)
| JArr (items : list json)
| JObj (fields : list (string * json)).

(** Own-property lookup in an object literal: the first binding of the key. *)
Fixpoint lookup {A : Type} (k : string) (fields : list (string * A)) : option A :=
  match fields with
  | [] => None
  | (k', v) :: rest => if String.eqb k k' then Some v else lookup k rest
  end.

(** [o[k] = v]: overwrite in place when the key exists, append otherwise. *)
Fixpoint assign {A : Type} (k : string) (v : A) (fields : list (string * A))
  : list (string * A) :=
  match fields with
  | [] => [(k, v)]
  | (k', v') :: rest =>
      if String.eqb k k' then (k, v) :: rest else (k', v') :: assign k v rest
  end.

(** [const { k, ...rest } = o]: the object without its property [k]. *)
Definition without {A : Type} (k : string) (fields : list (string * A))
  : list (string * A) :=
  filter (fun kv => negb (String.eqb k (fst kv))) fields.

(** [v.k].  Reading a property of [undefined] or [null] throws a TypeError
    ([None]); a missing property reads as [undefined]. *)
Definition get_prop (v : jsval) (k : string) : option jsval :=
  match v with
  | VUndefined | VNull => None
  | VObj fields =>
      Some (match lookup k fields with Some x => x | None => VUndefined end)
  | _ => Some VUndefined
  end.

(** [JSON.stringify]: properties holding [undefined] or a function are
    omitted, such array elements become [null], and such a value at the top
    yields no text ([None]). *)
Fixpoint JSON_stringify (v : jsval) : option json :=
  match v with
  | VUndefined => None
  | VFun _ => None
  | VNull => Some JNull
  | VBool b => Some (JBool b)
  | VNum n => Some (JNum n)
  | VStr s => Some (JStr s)
  | VArr items =>
      Some (JArr (map (fun x => match JSON_stringify x with
                                | Some j => j
                                | None => JNull
                                end) items))
  | VObj fields =>
      Some (JObj ((fix props (l : list (string * jsval)) : list (string * json) :=
                     match l with
                     | [] => []
                     | (k, x) :: rest =>
                         match JSON_stringify x with
                         | Some j => (k, j) :: props rest
                         | None => props rest
                         end
                     end) fields))
  end.

(** The properties [JSON.stringify] writes for an object. *)
Fixpoint stringify_props (l : list (string * jsval)) : list (string * json) :=
  match l with
  | [] => []
  | (k, x) :: rest =>
      match JSON_stringify x with
      | Some j => (k, j) :: stringify_props rest
      | None => stringify_props rest
      end
  end.

(** [JSON.parse] of a text, equally the evaluation of that text as a
    JavaScript literal. *)
Fixpoint JSON_parse (j : json) : jsval :=
  match j with
  | JNull => VNull
  | JBool b => VBool b
  | JNum n => VNum n
  | JStr s => VStr s
  | JArr items => VArr (map JSON_parse items)
  | JObj fields =>
      VObj ((fix props (l : list (string * json)) : list (string * jsval) :=
               match l with
               | [] => []
               | (k, x) :: rest => (k, JSON_parse x) :: props rest
               end) fields)
  end.

Fixpoint parse_props (l : list (string * json)) : list (string * jsval) :=
  match l with
  | [] => []
  | (k, x) :: rest => (k, JSON_parse x) :: parse_props rest
  end.

Definition quote_char : ascii := ascii_of_nat 34.
Definition backslash : ascii := ascii_of_nat 92.

Definition hex_digit (n : nat) : ascii :=
  ascii_of_nat (if Nat.ltb n 10 then 48 + n else 87 + n).

(** One character inside a string literal of JSON text, as
    [JSON.stringify] writes it: the quote, the backslash and the control
    characters are escaped, everything else (also [<], [/] and [>]) is
    copied. *)
Definition escape (c : ascii) : string :=
  let n := nat_of_ascii c in
  if Nat.eqb n 34 then String backslash (String quote_char "")
  else if Nat.eqb n 92 then String backslash (String backslash "")
  else if Nat.eqb n 8 then String backslash "b"
  else if Nat.eqb n 9 then String backslash "t"
  else if Nat.eqb n 10 then String backslash "n"
  else if Nat.eqb n 12 then String backslash "f"
  else if Nat.eqb n 13 then String backslash "r"
  else if Nat.ltb n 32 then
    String backslash
      (String "u" (String "0" (String "0"
         (String (hex_digit (n / 16)) (String (hex_digit (n mod 16)) "")))))
  else String c "".

Fixpoint escape_string (s : string) : string :=
  match s with
  | EmptyString => EmptyString
  | String c rest => String.append (escape c) (escape_string rest)
  end.

Definition quoted (s : string) : string :=
  String quote_char (String.append (escape_string s) (String quote_char "")).

(** The text [JSON.stringify] returns for the value with syntax tree [j]. *)
Fixpoint JSON_text (j : json) : string :=
  match j with
  | JNull => "null"
  | JBool true => "true"
  | JBool false => "false"
  | JNum n => NilZero.string_of_int (Z.to_int n)
  | JStr s => quoted s
  | JArr items =>
      String.append "["
        (String.append
           ((fix elements (l : list json) : string :=
               match l with
               | [] => ""
               | x :: rest =>
                   String.append (JSON_text x)
                     match rest with
                     | [] => ""
                     | _ :: _ => String.append "," (elements rest)
                     end
               end) items) "]")
  | JObj fields =>
      String.append "{"
        (String.append
           ((fix members (l : list (string * json)) : string :=
               match l with
               | [] => ""
               | (k, x) :: rest =>
                   String.append (quoted k)
                     (String.append ":"
                        (String.append (JSON_text x)
                           match rest with
                           | [] => ""
                           | _ :: _ => String.append "," (members rest)
                           end))
               end) fields) "}")
  end.

(** The value of JSON text evaluated as a JavaScript literal, as in
    [var options = {...};].  It is the value [JSON.parse] gives, except that
    in an object literal a member named [__proto__] sets the prototype and
    creates no own property. *)
Fixpoint literal_value (j : json) : jsval :=
  match j with
  | JNull => VNull
  | JBool b => VBool b
  | JNum n => VNum n
  | JStr s => VStr s
  | JArr items => VArr (map literal_value items)
  | JObj fields =>
      VObj ((fix props (l : list (string * json)) : list (string * jsval) :=
               match l with
               | [] => []
               | (k, x) :: rest =>
                   if String.eqb k "__proto__" then props rest
                   else (k, literal_value x) :: props rest
               end) fields)
  end.

Fixpoint literal_props (l : list (string * json)) : list (string * jsval) :=
  match l with
  | [] => []
  | (k, x) :: rest =>
      if String.eqb k "__proto__" then literal_props rest
      else (k, literal_value x) :: literal_props rest
  end.

(* ------------------------------------------------------------------ *)
(** ** Types of [src/types/index.ts] *)

(** [RazorpayOptions]: a JavaScript object. *)
Definition RazorpayOptions : Type := list (string * jsval).

(** [CheckoutCallbacks]: two required host functions and an optional one. *)
Record CheckoutCallbacks : Type := mkCallbacks {
  onSuccess : nat;
  onFailure : nat;
  onClose : option nat
}.

(** The three [useState] cells of [useRazorpay]. *)
Record HookState : Type := mkHook {
  isVisible : bool;
  checkoutOptions : option RazorpayOptions;
  callbacks : option CheckoutCallbacks
}.

(** Which host callback an invocation belongs to. *)
Inductive Slot : Type := SlotSuccess | SlotFailure | SlotClose.

(** An invocation of a host callback with its argument, if any. *)
Record HostCall : Type := mkCall {
  call_slot : Slot;
  call_fn : nat;
  call_arg : option jsval
}.

Inductive Update : Type :=
| SetIsVisible (b : bool)
| SetCheckoutOptions (o : option RazorpayOptions)
| SetCallbacks (c : option CheckoutCallbacks).

Inductive Effect : Type :=
| Upd (u : Update)
| Invoke (c : HostCall)
| SetTimeout (body : list Update) (ms : nat)
| OpenURL (url : string)
| ConsoleError (msg : string).

(* ------------------------------------------------------------------ *)
(** ** The hook [useRazorpay] *)

Module UseRazorpay.

(** The body of both timer closures:
    [() => { setCallbacks(null); setCheckoutOptions(null); }]. *)
Definition clear : list Update :=
  [SetCallbacks None; SetCheckoutOptions None].

Definition cleanup : list Effect :=
  [Upd (SetIsVisible false); SetTimeout clear 100].

Definition openCheckout (r : HookState) (options : RazorpayOptions)
  (cbs : CheckoutCallbacks) : list Effect :=
  if isVisible r then []
  else [Upd (SetCheckoutOptions (Some options));
        Upd (SetCallbacks (Some cbs));
        Upd (SetIsVisible true)].

(** [if (callbacks?.onClose) { callbacks.onClose(); }] *)
Definition call_onClose (r : HookState) : list Effect :=
  match callbacks r with
  | Some cbs =>
      match onClose cbs with
      | Some f => [Invoke (mkCall SlotClose f None)]
      | None => []
      end
  | None => []
  end.

Definition closeCheckout (r : HookState) : list Effect :=
  [Upd (SetIsVisible false)] ++ call_onClose r ++ [SetTimeout clear 100].

(** The props handed to [RazorpayCheckout].  A handler that throws before
    any effect yields [None]. *)
Record RazorpayCheckoutProps : Type := mkProps {
  options : RazorpayOptions;
  props_onSuccess : jsval -> option (list Effect);
  props_onFailure : jsval -> option (list Effect);
  props_onClose : list Effect
}.

(** [isVisible && checkoutOptions && callbacks ? <RazorpayCheckout .../> : null] *)
Definition RazorpayUI (r : HookState) : option RazorpayCheckoutProps :=
  if isVisible r then
    match checkoutOptions r, callbacks r with
    | Some opts, Some cbs =>
        Some {| options := opts;
                props_onSuccess := fun data =>
                  Some (Invoke (mkCall SlotSuccess (onSuccess cbs) (Some data))
                          :: cleanup);
                props_onFailure := fun error =>
                  match get_prop error "error" with
                  | Some e =>
                      Some (Invoke (mkCall SlotFailure (onFailure cbs) (Some e))
                              :: cleanup)
                  | None => None
                  end;
                props_onClose := closeCheckout r |}
    | _, _ => None
    end
  else None.

End UseRazorpay.

(* ------------------------------------------------------------------ *)
(** ** How the WebView reads the text of an inline script

    The tokenizer states of the HTML standard for the content of a [script]
    element.  The content ends where an end tag named [script] begins; inside
    [<!--] ... [-->] a [<script] makes the tokenizer skip the next such end
    tag. *)

Module Html.

Inductive state : Type :=
| Data
| LessThan
| EndTagOpen
| EndTagName (name : string)
| EscapeStart
| EscapeStartDash
| Escaped
| EscapedDash
| EscapedDashDash
| EscapedLessThan
| EscapedEndTagOpen
| EscapedEndTagName (name : string)
| DoubleEscapeStart (name : string)
| DoubleEscaped
| DoubleEscapedDash
| DoubleEscapedDashDash
| DoubleEscapedLessThan
| DoubleEscapeEnd (name : string).

Definition is_char (c : ascii) (n : nat) : bool := Nat.eqb (nat_of_ascii c) n.

Definition is_alpha (c : ascii) : bool :=
  let n := nat_of_ascii c in
  (Nat.leb 65 n && Nat.leb n 90) || (Nat.leb 97 n && Nat.leb n 122).

Definition lower (c : ascii) : ascii :=
  let n := nat_of_ascii c in
  if Nat.leb 65 n && Nat.leb n 90 then ascii_of_nat (n + 32) else c.

(** Tab, line feed, form feed, space, [/] or [>]: what ends a tag name. *)
Definition ends_name (c : ascii) : bool :=
  is_char c 9 || is_char c 10 || is_char c 12 || is_char c 32
  || is_char c 47 || is_char c 62.

Definition add (name : string) (c : ascii) : string :=
  String.append name (String (lower c) "").

(** The character [c] read in the three resting states. *)
Definition data_on (c : ascii) : state :=
  if is_char c 60 then LessThan else Data.

Definition escaped_on (c : ascii) : state :=
  if is_char c 45 then EscapedDash
  else if is_char c 60 then EscapedLessThan
  else Escaped.

Definition double_escaped_on (c : ascii) : state :=
  if is_char c 45 then DoubleEscapedDash
  else if is_char c 60 then DoubleEscapedLessThan
  else DoubleEscaped.

(** One character.  [None]: the end tag of the element is recognized. *)
Definition next (st : state) (c : ascii) : option state :=
  match st with
  | Data => Some (data_on c)
  | LessThan =>
      if is_char c 47 then Some EndTagOpen
      else if is_char c 33 then Some EscapeStart
      else Some (data_on c)
  | EndTagOpen =>
      if is_alpha c then Some (EndTagName (add "" c)) else Some (data_on c)
  | EndTagName name =>
      if ends_name c then
        if String.eqb name "script" then None else Some (data_on c)
      else if is_alpha c then Some (EndTagName (add name c))
      else Some (data_on c)
  | EscapeStart =>
      if is_char c 45 then Some EscapeStartDash else Some (data_on c)
  | EscapeStartDash =>
      if is_char c 45 then Some EscapedDashDash else Some (data_on c)
  | Escaped => Some (escaped_on c)
  | EscapedDash =>
      if is_char c 45 then Some EscapedDashDash
      else if is_char c 60 then Some EscapedLessThan
      else Some Escaped
  | EscapedDashDash =>
      if is_char c 45 then Some EscapedDashDash
      else if is_char c 60 then Some EscapedLessThan
      else if is_char c 62 then Some Data
      else Some Escaped
  | EscapedLessThan =>
      if is_char c 47 then Some EscapedEndTagOpen
      else if is_alpha c then Some (DoubleEscapeStart (add "" c))
      else Some (escaped_on c)
  | EscapedEndTagOpen =>
      if is_alpha c then Some (EscapedEndTagName (add "" c))
      else Some (escaped_on c)
  | EscapedEndTagName name =>
      if ends_name c then
        if String.eqb name "script" then None else Some (escaped_on c)
      else if is_alpha c then Some (EscapedEndTagName (add name c))
      else Some (escaped_on c)
  | DoubleEscapeStart name =>
      if ends_name c then
        if String.eqb name "script" then Some DoubleEscaped else Some Escaped
      else if is_alpha c then Some (DoubleEscapeStart (add name c))
      else Some (escaped_on c)
  | DoubleEscaped => Some (double_escaped_on c)
  | DoubleEscapedDash =>
      if is_char c 45 then Some DoubleEscapedDashDash
      else if is_char c 60 then Some DoubleEscapedLessThan
      else Some DoubleEscaped
  | DoubleEscapedDashDash =>
      if is_char c 45 then Some DoubleEscapedDashDash
      else if is_char c 60 then Some DoubleEscapedLessThan
      else if is_char c 62 then Some Data
      else Some DoubleEscaped
  | DoubleEscapedLessThan =>
      if is_char c 47 then Some (DoubleEscapeEnd "")
      else Some (double_escaped_on c)
  | DoubleEscapeEnd name =>
      if ends_name c then
        if String.eqb name "script" then Some Escaped else Some DoubleEscaped
      else if is_alpha c then Some (DoubleEscapeEnd (add name c))
      else Some (double_escaped_on c)
  end.

(** Whether a [<] was just read that may begin the end tag. *)
Definition tag_begins (st : state) : bool :=
  match st with
  | LessThan | EscapedLessThan => true
  | _ => false
  end.

(** [mark] is the position of the last [<] that may begin the end tag,
    [pos] the position of the next character. *)
Fixpoint scan (st : state) (mark pos : nat) (text : string) : option nat :=
  match text with
  | EmptyString => None
  | String c rest =>
      match next st c with
      | None => Some mark
      | Some st' => scan st' (if tag_begins st' then pos else mark) (S pos) rest
      end
  end.

(** The length of the content of a [script] element whose start tag is
    followed by [text]; [None] when the element is never closed. *)
Definition script_end (text : string) : option nat := scan Data 0 0 text.

End Html.

(* ------------------------------------------------------------------ *)
(** ** The component [RazorpayCheckout] *)

Module RazorpayCheckout.
Import UseRazorpay.

(** [const { handler, ...optionsWithoutHandler } = options;] *)
Definition optionsWithoutHandler (options : RazorpayOptions) : RazorpayOptions :=
  without "handler" options.

(** [JSON.stringify(optionsWithoutHandler)] *)
Definition optionsString (options : RazorpayOptions) : option json :=
  JSON_stringify (VObj (optionsWithoutHandler options)).

Definition newline : string := String (ascii_of_nat 10) "".

Definition lines (l : list string) : string := String.concat newline l.

(** [htmlContent] from the end of the inline [<script>] tag to the place of
    [${optionsString}]. *)
Definition script_head : string :=
  lines [
    "";
    "          // 1. Parse the options passed from React Native";
    "          var options = " ].

(** [htmlContent] from the place of [${optionsString}] to the inline
    [</script>]. *)
Definition script_tail : string :=
  lines [
    ";";
    "";
    "          // 2. Attach the Success Handler";
    "          options.handler = function (response){";
    "            window.ReactNativeWebView.postMessage(JSON.stringify({";
    "              type: 'PAYMENT_SUCCESS',";
    "              data: response";
    "            }));";
    "          };";
    "";
    "          // 3. Attach Modal Dismiss (User closed the popup)";
    "          options.modal = {";
    "            ondismiss: function(){";
    "              window.ReactNativeWebView.postMessage(JSON.stringify({";
    "                type: 'PAYMENT_CLOSED'";
    "              }));";
    "            }";
    "          };";
    "";
    "          var rzp1 = new Razorpay(options);";
    "";
    "          // 4. Attach Failure Handler (as per your documentation)";
    "          rzp1.on('payment.failed', function (response){";
    "             window.ReactNativeWebView.postMessage(JSON.stringify({";
    "                type: 'PAYMENT_FAILED',";
    "                error: response.error";
    "             }));";
    "          });";
    "";
    "          // 5. Open Widget";
    "          rzp1.open();";
    "        " ].

(** The rest of [htmlContent]. *)
Definition page_rest : string :=
  lines [
    "</script> ";
    "      </body>";
    "    </html>";
    "  " ].

(** The inline script as the component writes it. *)
Definition inline_script (text : string) : string :=
  String.append script_head (String.append text script_tail).

(** The inline script as the WebView reads it: the content of the element,
    up to the first end tag it recognizes. *)
Definition delivered_script (text : string) : option string :=
  let page := String.append (inline_script text) page_rest in
  match Html.script_end page with
  | Some n => Some (String.substring 0 n page)
  | None => None
  end.

(** Whether the element ends at the [</script>] the component wrote. *)
Definition script_intact (text : string) : bool :=
  match Html.script_end (String.append (inline_script text) page_rest) with
  | Some n => Nat.eqb n (String.length (inline_script text))
  | None => false
  end.

(** The page script from [var options = ${optionsString};] to
    [new Razorpay(options)]: the object the widget is constructed with.
    [None]: the widget is not constructed.  The script runs when the WebView
    reads it whole; a script cut short ends inside a string literal of the
    options text (no [<] occurs elsewhere in it) and is a syntax error.
    [optionsString] is always the text of an object literal. *)
Definition script_options (options : RazorpayOptions)
  : option (list (string * jsval)) :=
  match optionsString options with
  | Some (JObj fields) =>
      if script_intact (JSON_text (JObj fields)) then
        Some (assign "modal" (VObj [("ondismiss", VFun PostClosed)])
                (assign "handler" (VFun PostSuccess) (literal_props fields)))
      else None
  | _ => None
  end.

(** What a function of the page script posts through
    [window.ReactNativeWebView.postMessage(JSON.stringify(...))] when the
    widget calls it with [response].  [None]: nothing is posted (a TypeError
    inside the page, or not a function of the page). *)
Definition script_call (f : fnref) (response : jsval) : option json :=
  match f with
  | PostSuccess =>
      JSON_stringify (VObj [("type", VStr "PAYMENT_SUCCESS"); ("data", response)])
  | PostClosed =>
      JSON_stringify (VObj [("type", VStr "PAYMENT_CLOSED")])
  | PostFailed =>
      match get_prop response "error" with
      | Some e =>
          JSON_stringify (VObj [("type", VStr "PAYMENT_FAILED"); ("error", e)])
      | None => None
      end
  | HostFn _ => None
  end.

(** [v === 'literal'] *)
Definition is_string (v : jsval) (s : string) : bool :=
  match v with
  | VStr s' => String.eqb s' s
  | _ => false
  end.

(** [handleMessage]; [data] is [event.nativeEvent.data].  [None]: the handler
    throws before any effect; [Some []]: the message is ignored. *)
Definition handleMessage (p : RazorpayCheckoutProps) (data : json)
  : option (list Effect) :=
  let message := JSON_parse data in
  match get_prop message "type" with
  | None => None
  | Some type =>
      if is_string type "PAYMENT_SUCCESS" then
        match get_prop message "data" with
        | Some d => props_onSuccess p d
        | None => None
        end
      else if is_string type "PAYMENT_FAILED" then
        match get_prop message "error" with
        | Some e => props_onFailure p e
        | None => None
        end
      else if is_string type "PAYMENT_CLOSED" then
        Some (props_onClose p)
      else Some []
  end.

(** The promise returned by [Linking.openURL]. *)
Inductive Promise : Type :=
| Resolved
| Rejected (err : string).

(** [p.catch(h)]: the effects of the handler, and the promise it returns. *)
Definition catch (p : Promise) (h : string -> list Effect)
  : list Effect * Promise :=
  match p with
  | Resolved => ([], Resolved)
  | Rejected err => (h err, Resolved)
  end.

(** [url.startsWith(prefix)] *)
Definition startsWith (url prefix : string) : bool := String.prefix prefix url.

(** The result of [handleNavigation]: the value returned to the WebView, the
    effects, and the promise left behind (a [Rejected] one would be an
    unhandled rejection). *)
Record NavResult : Type := mkNav {
  nav_load : bool;
  nav_effects : list Effect;
  nav_promise : Promise
}.

(** [handleNavigation]; [Linking_openURL] is the answer of the operating
    system. *)
Definition handleNavigation (Linking_openURL : string -> Promise)
  (url : string) : NavResult :=
  if negb (startsWith url "http")
     && negb (startsWith url "https")
     && negb (startsWith url "about:blank")
  then
    let '(logged, settled) :=
      catch (Linking_openURL url)
        (fun err => [ConsoleError (String.append "Couldn't open UPI app " err)]) in
    {| nav_load := false;
       nav_effects := OpenURL url :: logged;
       nav_promise := settled |}
  else
    {| nav_load := true; nav_effects := []; nav_promise := Resolved |}.

(** JavaScript truthiness, as [||] tests it. *)
Definition truthy (v : jsval) : bool :=
  match v with
  | VUndefined | VNull => false
  | VBool b => b
  | VNum n => negb (Z.eqb n 0)
  | VStr s => negb (String.eqb s "")
  | VFun _ | VArr _ | VObj _ => true
  end.

(** [options.theme?.color || '#3399cc']: the colour of the loading
    indicator. *)
Definition loaderColor (options : RazorpayOptions) : jsval :=
  let theme := match lookup "theme" options with
               | Some t => t
               | None => VUndefined
               end in
  let color := match theme with
               | VUndefined | VNull => VUndefined
               | _ => match get_prop theme "color" with
                      | Some c => c
                      | None => VUndefined
                      end
               end in
  if truthy color then color else VStr "#3399cc".

End RazorpayCheckout.

(* ------------------------------------------------------------------ *)
(** ** The event loop *)

Record World : Type := mkWorld {
  hook : HookState;                     (* state committed by the last render *)
  timers : list (nat * list Update);    (* pending [setTimeout]s: due time, body *)
  now : nat;                            (* clock, in milliseconds *)
  hostLog : list HostCall;              (* host callbacks invoked so far *)
  opened : list string;                 (* URLs handed to [Linking.openURL] *)
  console : list string                 (* [console.error] output *)
}.

Definition init : World :=
  {| hook := mkHook false None None;
     timers := []; now := 0; hostLog := []; opened := []; console := [] |}.

Definition apply_update (h : HookState) (u : Update) : HookState :=
  match u with
  | SetIsVisible b => mkHook b (checkoutOptions h) (callbacks h)
  | SetCheckoutOptions o => mkHook (isVisible h) o (callbacks h)
  | SetCallbacks c => mkHook (isVisible h) (checkoutOptions h) c
  end.

Definition set_hook (w : World) (h : HookState) : World :=
  mkWorld h (timers w) (now w) (hostLog w) (opened w) (console w).

Definition exec1 (w : World) (e : Effect) : World :=
  match e with
  | Upd u => set_hook w (apply_update (hook w) u)
  | Invoke c =>
      mkWorld (hook w) (timers w) (now w) (hostLog w ++ [c]) (opened w) (console w)
  | SetTimeout body ms =>
      mkWorld (hook w) (timers w ++ [(now w + ms, body)]) (now w)
        (hostLog w) (opened w) (console w)
  | OpenURL url =>
      mkWorld (hook w) (timers w) (now w) (hostLog w) (opened w ++ [url]) (console w)
  | ConsoleError msg =>
      mkWorld (hook w) (timers w) (now w) (hostLog w) (opened w) (console w ++ [msg])
  end.

Definition exec (w : World) (es : list Effect) : World := fold_left exec1 es w.

Definition is_due (t : nat) (timer : nat * list Update) : bool := Nat.leb (fst timer) t.

(** The clock advances by [ms]; the timers that are due run in the order in
    which they were scheduled (all delays in the source are equal). *)
Definition advance (w : World) (ms : nat) : World :=
  let t := now w + ms in
  let due := filter (is_due t) (timers w) in
  mkWorld (fold_left apply_update (List.concat (map snd due)) (hook w))
    (filter (fun timer => negb (is_due t timer)) (timers w))
    t (hostLog w) (opened w) (console w).

Inductive Event : Type :=
| HostOpen (options : RazorpayOptions) (cbs : CheckoutCallbacks)
                                  (* the host calls [openCheckout] *)
| HostClose                       (* the host calls [closeCheckout] *)
| Message (data : json)           (* WebView [onMessage] *)
| RequestClose                    (* Modal [onRequestClose] *)
| Navigate (url : string) (os : RazorpayCheckout.Promise)
                                  (* WebView [onShouldStartLoadWithRequest] *)
| Tick (ms : nat)                 (* time passes *)
| KeptOpen (r : HookState) (options : RazorpayOptions) (cbs : CheckoutCallbacks)
                                  (* the host calls the [openCheckout] it kept
                                     from an earlier render, whose state was [r] *)
| KeptClose (r : HookState).      (* likewise for [closeCheckout] *)

(** The effects of the handler an event reaches; [r] is the state of the
    latest render.  The three events of the component reach the handlers of
    that render, and only while it is mounted; a handler that throws has no
    effect.  A call of the host reaches the closure the host holds: the one
    of the latest render ([HostOpen], [HostClose]) or one it kept from an
    earlier render ([KeptOpen], [KeptClose]), which reads the state of that
    render. *)
Definition dispatch (r : HookState) (ev : Event) : list Effect :=
  match ev with
  | HostOpen options cbs => UseRazorpay.openCheckout r options cbs
  | HostClose => UseRazorpay.closeCheckout r
  | Message data =>
      match UseRazorpay.RazorpayUI r with
      | Some p =>
          match RazorpayCheckout.handleMessage p data with
          | Some es => es
          | None => []
          end
      | None => []
      end
  | RequestClose =>
      match UseRazorpay.RazorpayUI r with
      | Some p => UseRazorpay.props_onClose p
      | None => []
      end
  | Navigate url os =>
      match UseRazorpay.RazorpayUI r with
      | Some _ =>
          RazorpayCheckout.nav_effects
            (RazorpayCheckout.handleNavigation (fun _ => os) url)
      | None => []
      end
  | Tick _ => []
  | KeptOpen r' options cbs => UseRazorpay.openCheckout r' options cbs
  | KeptClose r' => UseRazorpay.closeCheckout r'
  end.

(** One event; the setters it calls are committed before the next one. *)
Definition step (w : World) (ev : Event) : World :=
  match ev with
  | Tick ms => advance w ms
  | _ => exec w (dispatch (hook w) ev)
  end.

Definition run (w : World) (evs : list Event) : World := fold_left step evs w.

(** Whether the surface is mounted. *)
Definition mounted (w : World) : bool :=
  match UseRazorpay.RazorpayUI (hook w) with Some _ => true | None => false end.

(** The host callbacks a list of effects invokes, in order. *)
Fixpoint invocations (es : list Effect) : list HostCall :=
  match es with
  | [] => []
  | Invoke c :: rest => c :: invocations rest
  | _ :: rest => invocations rest
  end.

(** The setter calls in a list of effects, in order. *)
Fixpoint updates (es : list Effect) : list Update :=
  match es with
  | [] => []
  | Upd u :: rest => u :: updates rest
  | _ :: rest => updates rest
  end.

(** The timers a list of effects schedules at time [t]. *)
Fixpoint scheduled (t : nat) (es : list Effect) : list (nat * list Update) :=
  match es with
  | [] => []
  | SetTimeout body ms :: rest => (t + ms, body) :: scheduled t rest
  | _ :: rest => scheduled t rest
  end.

Definition is_terminal (c : HostCall) : bool :=
  match call_slot c with
  | SlotSuccess | SlotFailure => true
  | SlotClose => false
  end.

Definition is_close (c : HostCall) : bool :=
  match call_slot c with
  | SlotClose => true
  | _ => false
  end.

(** Whether the event is a call of [openCheckout] that is accepted: the
    closure called was created by a render that was not visible. *)
Definition accepted_open (w : World) (ev : Event) : bool :=
  match ev with
  | HostOpen _ _ => negb (isVisible (hook w))
  | KeptOpen r _ _ => negb (isVisible r)
  | _ => false
  end.

(** The events of one session: those that follow an accepted [openCheckout],
    up to the next [openCheckout] that is accepted. *)
Fixpoint session (w : World) (evs : list Event) : list Event :=
  match evs with
  | [] => []
  | ev :: rest =>
      if accepted_open w ev then [] else ev :: session (step w ev) rest
  end.

(** The callbacks held by the closure of the host that the event calls. *)
Definition captured_callbacks (w : World) (ev : Event) : option CheckoutCallbacks :=
  match ev with
  | KeptOpen r _ _ => callbacks r
  | KeptClose r => callbacks r
  | _ => callbacks (hook w)
  end.

(** Whether the event is a call of a [closeCheckout] whose closure holds
    callbacks. *)
Definition closes_with_callbacks (w : World) (ev : Event) : bool :=
  match ev with
  | HostClose | KeptClose _ =>
      match captured_callbacks w ev with Some _ => true | None => false end
  | _ => false
  end.

(** Every pending timer runs the clearing closure. *)
Definition timers_clear (w : World) : Prop :=
  Forall (fun timer => snd timer = UseRazorpay.clear) (timers w).

Definition reachable (w : World) : Prop := exists evs, run init evs = w.

(* ------------------------------------------------------------------ *)
(** ** Vocabulary of the statements *)

Import UseRazorpay RazorpayCheckout.

(** Concrete data used by the examples below. *)
Definition demo_options : RazorpayOptions :=
  [("key", VStr "k1"); ("amount", VNum 500); ("currency", VStr "INR");
   ("order_id", VStr "o1"); ("name", VStr "Shop")].

Definition demo_callbacks : CheckoutCallbacks :=
  {| onSuccess := 1; onFailure := 2; onClose := Some 3 |}.

Definition other_options : RazorpayOptions :=
  [("key", VStr "k2"); ("amount", VNum 900); ("currency", VStr "INR");
   ("subscription_id", VStr "s7"); ("name", VStr "Shop")].

Definition other_callbacks : CheckoutCallbacks :=
  {| onSuccess := 11; onFailure := 12; onClose := None |}.

(** The callback [closeCheckout] invokes for the stored callbacks [cbs]. *)
Definition close_call (cbs : CheckoutCallbacks) : list HostCall :=
  match onClose cbs with
  | Some f => [mkCall SlotClose f None]
  | None => []
  end.

(** The state of the spec's IDLE: nothing stored, nothing shown. *)
Definition idle (w : World) : Prop := hook w = mkHook false None None.

(** Every [setTimeout] in the source schedules the clearing closure. *)
Definition schedules_clear (e : Effect) : Prop :=
  match e with
  | SetTimeout body _ => body = clear
  | _ => True
  end.

(** The calls that follow the first terminal call of a log. *)
Fixpoint after_terminal (calls : list HostCall) : list HostCall :=
  match calls with
  | [] => []
  | c :: rest => if is_terminal c then rest else after_terminal rest
  end.

Definition is_some {A : Type} (o : option A) : bool :=
  match o with Some _ => true | None => false end.

(** Whether, while [evs] are handled from [w], a [closeCheckout] whose
    closure holds callbacks is called at a moment when the controller is
    hidden. *)
Fixpoint stale_close (w : World) (evs : list Event) : bool :=
  match evs with
  | [] => false
  | ev :: rest =>
      (closes_with_callbacks w ev && negb (isVisible (hook w)))
      || stale_close (step w ev) rest
  end.

(** Options one of whose strings holds the end tag of a script element, and
    the text [JSON.stringify] gives for them. *)
Definition injected_options : RazorpayOptions :=
  [("key", VStr "k1"); ("amount", VNum 500); ("name", VStr "</script>")].

Definition injected_text : string :=
  JSON_text (JObj [("key", JStr "k1"); ("amount", JNum 500);
                   ("name", JStr "</script>")]).

Definition demo_payment : jsval :=
  VObj [("razorpay_payment_id", VStr "p1"); ("razorpay_order_id", VStr "o1");
        ("razorpay_signature", VStr "sig")].

Definition demo_success_message : json :=
  JObj [("type", JStr "PAYMENT_SUCCESS");
        ("data", JObj [("razorpay_payment_id", JStr "p1");
                       ("razorpay_order_id", JStr "o1");
                       ("razorpay_signature", JStr "sig")])].

(** A response of the widget's [payment.failed] event, as
    [RazorpayErrorResponse] declares it. *)
Definition demo_error : jsval :=
  VObj [("code", VStr "GATEWAY_ERROR");
        ("description", VStr "Payment failed");
        ("source", VStr "gateway");
        ("step", VStr "payment_authorization");
        ("reason", VStr "payment_failed")].

Definition demo_failure : jsval := VObj [("error", demo_error)].

Definition demo_failure_message : json :=
  JObj [("type", JStr "PAYMENT_FAILED");
        ("error", JObj [("code", JStr "GATEWAY_ERROR");
                        ("description", JStr "Payment failed");
                        ("source", JStr "gateway");
                        ("step", JStr "payment_authorization");
                        ("reason", JStr "payment_failed")])].

(** The words of the specification about URLs, to compare
    [handleNavigation] with: the scheme of a URL is what precedes its first
    colon; the web schemes are http and https; the blank placeholder page is
    about:blank. *)
Module Spec.

Fixpoint scheme (url : string) : option string :=
  match url with
  | EmptyString => None
  | String c rest =>
      if Ascii.eqb c ":"%char then Some EmptyString
      else option_map (String c) (scheme rest)
  end.

Definition web_scheme (url : string) : bool :=
  match scheme url with
  | Some s => String.eqb s "http" || String.eqb s "https"
  | None => false
  end.

Definition blank_page (url : string) : bool := String.eqb url "about:blank".

End Spec.

Definition load_normally : NavResult :=
  {| nav_load := true; nav_effects := []; nav_promise := Resolved |}.

(** Whether a value contains no function of the host. *)
Fixpoint host_free (v : jsval) : bool :=
  match v with
  | VFun (HostFn _) => false
  | VArr items => forallb host_free items
  | VObj fields =>
      (fix all (l : list (string * jsval)) : bool :=
         match l with
         | [] => true
         | (_, x) :: rest => host_free x && all rest
         end) fields
  | _ => true
  end.

Fixpoint host_free_props (l : list (string * jsval)) : bool :=
  match l with
  | [] => true
  | (_, x) :: rest => host_free x && host_free_props rest
  end.

(** The invocation [c] calls a function of the callbacks [cbs], in its own
    slot. *)
Definition belongs (cbs : CheckoutCallbacks) (c : HostCall) : Prop :=
  match call_slot c with
  | SlotSuccess => call_fn c = onSuccess cbs
  | SlotFailure => call_fn c = onFailure cbs
  | SlotClose => onClose cbs = Some (call_fn c)
  end.

(** Every [setTimeout] schedules the clearing closure after 100 ms. *)
Definition schedules_clear_100 (e : Effect) : Prop :=
  match e with
  | SetTimeout body ms => body = clear /\ ms = 100
  | _ => True
  end.

(** What the event loop maintains: the pending timers run the clearing
    closure and are due within 100 ms; options and callbacks are stored
    together; a hidden controller that still stores callbacks has a clear
    pending. *)
Record well_formed (w : World) : Prop := mkWellFormed {
  wf_clear : timers_clear w;
  wf_due : Forall (fun timer => fst timer <= now w + 100) (timers w);
  wf_together : is_some (checkoutOptions (hook w)) = is_some (callbacks (hook w));
  wf_pending : isVisible (hook w) = false -> callbacks (hook w) <> None ->
               timers w <> []
}.

(** Whether the event is a call of [closeCheckout] by the host. *)
Definition is_close_call (ev : Event) : bool :=
  match ev with
  | HostClose | KeptClose _ => true
  | _ => false
  end.

(** Events that neither close the checkout nor carry a message, nor call
    an [openCheckout] kept from a render that was not visible. *)
Definition passive (ev : Event) : bool :=
  match ev with
  | Tick _ | Navigate _ _ | HostOpen _ _ => true
  | KeptOpen r _ _ => isVisible r
  | _ => false
  end.

(* ------------------------------------------------------------------ *)
(** ** The interpreter *)

Section Interpreter.

Lemma run_cons (w : World) (ev : Event) (evs : list Event) :
  run w (ev :: evs) = run (step w ev) evs.
Proof. reflexivity. Qed.

Lemma hostLog_exec (es : list Effect) : forall w,
  hostLog (exec w es) = hostLog w ++ invocations es.
Proof.
  induction es as [|e es IH]; intro w; simpl.
  - now rewrite app_nil_r.
  - change (exec w (e :: es)) with (exec (exec1 w e) es). rewrite IH.
    destruct e; simpl; trivial. now rewrite <- app_assoc.
Qed.

Lemma hook_exec (es : list Effect) : forall w,
  hook (exec w es) = fold_left apply_update (updates es) (hook w).
Proof.
  induction es as [|e es IH]; intro w; simpl; trivial.
  change (exec w (e :: es)) with (exec (exec1 w e) es). rewrite IH.
  destruct e; reflexivity.
Qed.

Lemma timers_exec (es : list Effect) : forall w,
  timers (exec w es) = timers w ++ scheduled (now w) es.
Proof.
  induction es as [|e es IH]; intro w; simpl.
  - now rewrite app_nil_r.
  - change (exec w (e :: es)) with (exec (exec1 w e) es). rewrite IH.
    destruct e; simpl; trivial. now rewrite <- app_assoc.
Qed.

End Interpreter.

(* ------------------------------------------------------------------ *)
(** ** [openCheckout] and [closeCheckout] *)

Section Controller.

Lemma openCheckout_throttled (r : HookState) options cbs :
  isVisible r = true -> openCheckout r options cbs = [].
Proof. unfold openCheckout. now intros ->. Qed.

Lemma step_open_visible (w : World) options cbs :
  isVisible (hook w) = true -> step w (HostOpen options cbs) = w.
Proof. intro H. simpl. now rewrite openCheckout_throttled. Qed.

Lemma step_open_hidden (w : World) options cbs :
  isVisible (hook w) = false ->
  step w (HostOpen options cbs)
  = set_hook w (mkHook true (Some options) (Some cbs)).
Proof.
  intro H. destruct w as [[v o c] ts t l u e]. simpl in H. subst v. reflexivity.
Qed.

Lemma run_opens_visible (calls : list (RazorpayOptions * CheckoutCallbacks)) :
  forall w, isVisible (hook w) = true ->
  run w (map (fun oc => HostOpen (fst oc) (snd oc)) calls) = w.
Proof.
  induction calls as [|[o c] calls IH]; intros w H; [reflexivity|].
  cbn [map fst snd]. rewrite run_cons, step_open_visible by assumption.
  now apply IH.
Qed.

(** Calls through the closure of the latest render are throttled.
    Starting from a controller that is not visible, the first [openCheckout]
    of a sequence stores its options and callbacks and makes the controller
    visible; every further [openCheckout] of the latest render emits no
    effect at all, so the whole state after the sequence is the state after
    the first call. *)
Theorem openCheckout_only_first_call_mounts
  (w : World) options cbs (later : list (RazorpayOptions * CheckoutCallbacks)) :
  isVisible (hook w) = false ->
  let w1 := step w (HostOpen options cbs) in
  hook w1 = mkHook true (Some options) (Some cbs)
  /\ mounted w1 = true
  /\ Forall (fun oc => openCheckout (hook w1) (fst oc) (snd oc) = []) later
  /\ run w1 (map (fun oc => HostOpen (fst oc) (snd oc)) later) = w1.
Proof.
  intros H w1. subst w1. rewrite step_open_hidden by assumption.
  repeat split.
  - apply Forall_forall. intros oc _. reflexivity.
  - now apply run_opens_visible.
Qed.

Lemma openCheckout_only_first_call_mounts_witness :
  let w1 := step init (HostOpen demo_options demo_callbacks) in
  hook w1 = mkHook true (Some demo_options) (Some demo_callbacks)
  /\ mounted w1 = true
  /\ Forall (fun oc => openCheckout (hook w1) (fst oc) (snd oc) = [])
       [(other_options, other_callbacks); (demo_options, demo_callbacks)]
  /\ run w1 (map (fun oc => HostOpen (fst oc) (snd oc))
               [(other_options, other_callbacks); (demo_options, demo_callbacks)])
     = w1.
Proof.
  apply (openCheckout_only_first_call_mounts init demo_options demo_callbacks
           [(other_options, other_callbacks); (demo_options, demo_callbacks)]).
  reflexivity.
Defined.

(** An [openCheckout] kept from a render that was not visible is accepted
    in every state. *)
Lemma kept_openCheckout_accepted (w : World) (r : HookState) options cbs :
  isVisible r = false ->
  step w (KeptOpen r options cbs)
  = set_hook w (mkHook true (Some options) (Some cbs)).
Proof.
  intro H. unfold step, dispatch, openCheckout. rewrite H.
  destruct w as [[v o c] ts t l u e]. reflexivity.
Qed.

(** C4 on the code.  The host calls twice the [openCheckout] it got from
    the first render (as two runs of an async press handler do).  The
    second call is made while the first request is mounted and visible, but
    the closure reads the [isVisible] of its own render, which is false: the
    call is accepted and replaces the stored options and callbacks.  The
    same call through the closure of the latest render is ignored. *)
Theorem kept_openCheckout_replaces_active_request :
  let w1 := step init (KeptOpen (hook init) demo_options demo_callbacks) in
  let w2 := step w1 (KeptOpen (hook init) other_options other_callbacks) in
  isVisible (hook init) = false
  /\ hook w1 = mkHook true (Some demo_options) (Some demo_callbacks)
  /\ mounted w1 = true
  /\ openCheckout (hook init) other_options other_callbacks
     = [Upd (SetCheckoutOptions (Some other_options));
        Upd (SetCallbacks (Some other_callbacks));
        Upd (SetIsVisible true)]
  /\ hook w2 = mkHook true (Some other_options) (Some other_callbacks)
  /\ step w1 (HostOpen other_options other_callbacks) = w1.
Proof. repeat split. Qed.

Lemma step_close (w : World) :
  step w HostClose
  = mkWorld (mkHook false (checkoutOptions (hook w)) (callbacks (hook w)))
      (timers w ++ [(now w + 100, clear)]) (now w)
      (hostLog w ++ match callbacks (hook w) with
                    | Some cbs => close_call cbs
                    | None => []
                    end)
      (opened w) (console w).
Proof.
  destruct w as [[v o c] ts t l u e]. unfold close_call. cbn.
  destruct c as [[s f [g|]]|]; cbn; rewrite ?app_nil_r; reflexivity.
Qed.

Lemma step_kept_close (w : World) (r : HookState) :
  step w (KeptClose r)
  = mkWorld (mkHook false (checkoutOptions (hook w)) (callbacks (hook w)))
      (timers w ++ [(now w + 100, clear)]) (now w)
      (hostLog w ++ match callbacks r with
                    | Some cbs => close_call cbs
                    | None => []
                    end)
      (opened w) (console w).
Proof.
  destruct w as [[v o c] ts t l u e]. unfold close_call.
  destruct r as [rv ro [[s f [g|]]|]]; cbn; rewrite ?app_nil_r; reflexivity.
Qed.



End Controller.

(* ------------------------------------------------------------------ *)
(** ** Closing when nothing is shown *)

Section Idle.

(** C3, as stated, fails.  After one [closeCheckout] the controller is not
    visible and the surface is unmounted, yet a second [closeCheckout] invokes
    [onClose] again.  And in the initial state a [closeCheckout] is observable
    later: the clear it schedules removes a request that is opened before the
    100 ms are over. *)
Lemma closeCheckout_idle_counterexample :
  let w1 := run init [HostOpen demo_options demo_callbacks; HostClose] in
  (isVisible (hook w1) = false /\ mounted w1 = false
   /\ hostLog w1 = [mkCall SlotClose 3 None]
   /\ hostLog (step w1 HostClose)
      = [mkCall SlotClose 3 None; mkCall SlotClose 3 None])
  /\ (idle init
      /\ mounted (run init [HostOpen demo_options demo_callbacks; Tick 100]) = true
      /\ mounted (run init [HostClose; HostOpen demo_options demo_callbacks; Tick 100])
         = false).
Proof. repeat split. Qed.

(** C3, amended.  When the controller is not visible and holds neither
    options nor callbacks, a [closeCheckout] whose closure holds no
    callbacks (the one of the latest render, or one kept from a render that
    stored none) invokes no callback, leaves the three state cells and the
    (absent) surface as they are, opens no URL and logs nothing; its only
    trace is one more pending clear, and repeating the call only adds
    another.  A [closeCheckout] kept from a render that stored callbacks
    with an [onClose] invokes that [onClose] in this state too. *)
Theorem closeCheckout_idle_no_callback (w : World) :
  idle w ->
  (forall ev,
     ev = HostClose \/ (exists r, ev = KeptClose r /\ callbacks r = None) ->
     hook (step w ev) = hook w
     /\ mounted (step w ev) = false
     /\ hostLog (step w ev) = hostLog w
     /\ opened (step w ev) = opened w
     /\ console (step w ev) = console w
     /\ timers (step w ev) = timers w ++ [(now w + 100, clear)]
     /\ idle (step w ev)
     /\ hook (run w [ev; ev]) = hook (step w ev)
     /\ hostLog (run w [ev; ev]) = hostLog (step w ev))
  /\ (forall r cbs f,
        callbacks r = Some cbs -> onClose cbs = Some f ->
        hostLog (step w (KeptClose r)) = hostLog w ++ [mkCall SlotClose f None]).
Proof.
  unfold idle. intro H. split.
  - intros ev [->|(r & -> & Hr)]; cbn [run fold_left];
      rewrite ?step_close, ?step_kept_close;
      cbn [hook hostLog timers opened console now]; rewrite ?H, ?Hr; cbn;
      rewrite ?app_nil_r; repeat split.
  - intros r cbs f Hr Hf. rewrite step_kept_close. cbn [hostLog].
    rewrite Hr. unfold close_call. now rewrite Hf.
Qed.

Lemma closeCheckout_idle_no_callback_witness :
  (hook (step init HostClose) = hook init
   /\ hostLog (step init HostClose) = hostLog init
   /\ timers (step init HostClose) = timers init ++ [(now init + 100, clear)]
   /\ hostLog (run init [KeptClose (hook init); KeptClose (hook init)])
      = hostLog init)
  /\ (let w := run init [HostOpen demo_options demo_callbacks; HostClose; Tick 100] in
      idle w
      /\ hostLog (step w HostClose) = hostLog w
      /\ hostLog (step w (KeptClose (mkHook true (Some demo_options)
                                       (Some demo_callbacks))))
         = hostLog w ++ [mkCall SlotClose 3 None]).
Proof.
  split.
  - destruct (closeCheckout_idle_no_callback init eq_refl) as [Hquiet _].
    destruct (Hquiet HostClose (or_introl eq_refl))
      as (H1 & _ & H2 & _ & _ & H3 & _).
    destruct (Hquiet (KeptClose (hook init))
                (or_intror (ex_intro _ (hook init) (conj eq_refl eq_refl))))
      as (_ & _ & H4 & _ & _ & _ & _ & _ & H5).
    split; [exact H1|]. split; [exact H2|]. split; [exact H3|].
    now rewrite H5, H4.
  - intro w.
    destruct (closeCheckout_idle_no_callback w eq_refl) as [Hquiet Hkept].
    split; [reflexivity|]. split.
    + now destruct (Hquiet HostClose (or_introl eq_refl)) as (_ & _ & H2 & _).
    + apply (Hkept _ demo_callbacks 3); reflexivity.
Defined.

End Idle.

(* ------------------------------------------------------------------ *)
(** ** Messages of the widget *)

Section Messages.

Lemma RazorpayUI_active options cbs :
  RazorpayUI (mkHook true (Some options) (Some cbs))
  = Some {| options := options;
            props_onSuccess := fun data =>
              Some (Invoke (mkCall SlotSuccess (onSuccess cbs) (Some data))
                      :: cleanup);
            props_onFailure := fun error =>
              match get_prop error "error" with
              | Some e =>
                  Some (Invoke (mkCall SlotFailure (onFailure cbs) (Some e))
                          :: cleanup)
              | None => None
              end;
            props_onClose := closeCheckout (mkHook true (Some options) (Some cbs)) |}.
Proof. reflexivity. Qed.

Lemma RazorpayUI_some (r : HookState) p :
  RazorpayUI r = Some p ->
  exists opts cbs,
    r = mkHook true (Some opts) (Some cbs)
    /\ p = {| options := opts;
              props_onSuccess := fun data =>
                Some (Invoke (mkCall SlotSuccess (onSuccess cbs) (Some data))
                        :: cleanup);
              props_onFailure := fun error =>
                match get_prop error "error" with
                | Some e =>
                    Some (Invoke (mkCall SlotFailure (onFailure cbs) (Some e))
                            :: cleanup)
                | None => None
                end;
              props_onClose := closeCheckout r |}.
Proof.
  destruct r as [v [o|] [c|]]; unfold RazorpayUI; cbn [isVisible checkoutOptions callbacks];
    destruct v; try discriminate.
  intros [= <-]. now exists o, c.
Qed.

Lemma handleMessage_closed (p : RazorpayCheckoutProps) (data : json) :
  get_prop (JSON_parse data) "type" = Some (VStr "PAYMENT_CLOSED") ->
  handleMessage p data = Some (props_onClose p).
Proof. unfold handleMessage. now intros ->. Qed.

(** The message the dismiss handler of the page script posts. *)
Lemma script_ondismiss_message (response : jsval) :
  script_call PostClosed response = Some (JObj [("type", JStr "PAYMENT_CLOSED")]).
Proof. reflexivity. Qed.

(** C6.  A message of type PAYMENT_CLOSED (the one the page's [ondismiss]
    posts) that reaches the mounted component makes the controller invisible
    and unmounts the surface; the only host callback invoked is [onClose],
    once, when the host supplied one; [onFailure] and [onSuccess] are not
    invoked. *)
Theorem dismissed_routes_to_onClose (w : World) options cbs (data : json) :
  hook w = mkHook true (Some options) (Some cbs) ->
  get_prop (JSON_parse data) "type" = Some (VStr "PAYMENT_CLOSED") ->
  let w' := step w (Message data) in
  isVisible (hook w') = false
  /\ mounted w' = false
  /\ hostLog w' = hostLog w ++ close_call cbs
  /\ (forall f, onClose cbs = Some f ->
        hostLog w' = hostLog w ++ [mkCall SlotClose f None])
  /\ filter is_terminal (close_call cbs) = [].
Proof.
  intros H Hty w'. subst w'.
  assert (Hstep : step w (Message data) = step w HostClose).
  { unfold step, dispatch. rewrite H, RazorpayUI_active.
    rewrite (handleMessage_closed _ _ Hty). reflexivity. }
  rewrite Hstep, step_close, H. cbn [hook hostLog isVisible callbacks].
  repeat split.
  - intros f Hf. unfold close_call. now rewrite Hf.
  - unfold close_call. destruct (onClose cbs); reflexivity.
Qed.

Lemma dismissed_routes_to_onClose_witness :
  let w := step init (HostOpen demo_options demo_callbacks) in
  let w' := step w (Message (JObj [("type", JStr "PAYMENT_CLOSED")])) in
  isVisible (hook w') = false
  /\ mounted w' = false
  /\ hostLog w' = hostLog w ++ close_call demo_callbacks
  /\ (forall f, onClose demo_callbacks = Some f ->
        hostLog w' = hostLog w ++ [mkCall SlotClose f None])
  /\ filter is_terminal (close_call demo_callbacks) = [].
Proof.
  apply (dismissed_routes_to_onClose
           (step init (HostOpen demo_options demo_callbacks))
           demo_options demo_callbacks (JObj [("type", JStr "PAYMENT_CLOSED")]));
    reflexivity.
Defined.

End Messages.

(* ------------------------------------------------------------------ *)
(** ** Invariants of the event loop *)

Section Invariants.

Lemma scheduled_clear (t : nat) (es : list Effect) :
  Forall schedules_clear es ->
  Forall (fun timer => snd timer = clear) (scheduled t es).
Proof.
  induction 1 as [|e es He _ IH]; simpl; [constructor|].
  destruct e; simpl in *; auto.
Qed.

Lemma closeCheckout_schedules_clear (r : HookState) :
  Forall schedules_clear (closeCheckout r).
Proof.
  unfold closeCheckout, call_onClose.
  destruct (callbacks r) as [[s f [g|]]|]; repeat constructor.
Qed.

Lemma handleMessage_schedules_clear (r : HookState) p data es :
  RazorpayUI r = Some p -> handleMessage p data = Some es ->
  Forall schedules_clear es.
Proof.
  unfold RazorpayUI. destruct (isVisible r) eqn:Hv; [|discriminate].
  destruct (checkoutOptions r) as [o|]; [|discriminate].
  destruct (callbacks r) as [c|] eqn:Hc; [|discriminate].
  intro Hp. injection Hp as <-. unfold handleMessage. cbn.
  destruct (get_prop (JSON_parse data) "type") as [ty|]; [|discriminate].
  destruct (is_string ty "PAYMENT_SUCCESS").
  { destruct (get_prop (JSON_parse data) "data"); [|discriminate].
    intro H. injection H as <-. repeat constructor. }
  destruct (is_string ty "PAYMENT_FAILED").
  { destruct (get_prop (JSON_parse data) "error") as [e|]; [|discriminate].
    destruct (get_prop e "error"); [|discriminate].
    intro H. injection H as <-. repeat constructor. }
  destruct (is_string ty "PAYMENT_CLOSED"); intro H; injection H as <-.
  - apply closeCheckout_schedules_clear.
  - constructor.
Qed.

Lemma handleNavigation_effects os url :
  Forall schedules_clear (nav_effects (handleNavigation os url))
  /\ invocations (nav_effects (handleNavigation os url)) = []
  /\ updates (nav_effects (handleNavigation os url)) = []
  /\ forall t, scheduled t (nav_effects (handleNavigation os url)) = [].
Proof.
  unfold handleNavigation.
  destruct (negb (startsWith url "http") && negb (startsWith url "https")
            && negb (startsWith url "about:blank")).
  - destruct (os url); cbn; repeat split; repeat constructor.
  - cbn. repeat split; constructor.
Qed.

Lemma dispatch_schedules_clear (r : HookState) (ev : Event) :
  Forall schedules_clear (dispatch r ev).
Proof.
  destruct ev as [o c| |data| |url os|ms|r' o c|r']; cbn [dispatch].
  - unfold openCheckout. destruct (isVisible r); repeat constructor.
  - apply closeCheckout_schedules_clear.
  - destruct (RazorpayUI r) as [p|] eqn:Hp; [|constructor].
    destruct (handleMessage p data) as [es|] eqn:Hes; [|constructor].
    eapply handleMessage_schedules_clear; eassumption.
  - unfold RazorpayUI. destruct (isVisible r); [|constructor].
    destruct (checkoutOptions r); [|constructor].
    destruct (callbacks r); [|constructor].
    apply closeCheckout_schedules_clear.
  - destruct (RazorpayUI r); [|constructor]. apply handleNavigation_effects.
  - constructor.
  - unfold openCheckout. destruct (isVisible r'); repeat constructor.
  - apply closeCheckout_schedules_clear.
Qed.

Lemma timers_clear_step (w : World) (ev : Event) :
  timers_clear w -> timers_clear (step w ev).
Proof.
  unfold timers_clear. intro H.
  assert (Hexec : forall es, Forall schedules_clear es ->
            Forall (fun timer => snd timer = clear) (timers (exec w es))).
  { intros es Hes. rewrite timers_exec. apply Forall_app. split; trivial.
    now apply scheduled_clear. }
  destruct ev; try (apply Hexec, dispatch_schedules_clear).
  cbn. rewrite Forall_forall in *. intros x Hx.
  apply filter_In in Hx. now apply H.
Qed.

Lemma timers_clear_run (evs : list Event) : forall w,
  timers_clear w -> timers_clear (run w evs).
Proof.
  induction evs as [|ev evs IH]; intros w H; [exact H|].
  rewrite run_cons. now apply IH, timers_clear_step.
Qed.

Lemma reachable_timers_clear (w : World) : reachable w -> timers_clear w.
Proof.
  intros [evs <-]. apply timers_clear_run. constructor.
Qed.

(** Firing clearing closures never touches the visibility flag, and firing at
    least one of them empties both cells. *)
Lemma fire_clear (due : list (nat * list Update)) : forall h,
  Forall (fun timer => snd timer = clear) due ->
  fold_left apply_update (List.concat (map snd due)) h
  = match due with
    | [] => h
    | _ :: _ => mkHook (isVisible h) None None
    end.
Proof.
  induction due as [|[t body] due IH]; intros h H; [reflexivity|].
  inversion H as [|? ? Hbody Hdue]; subst. cbn in Hbody. subst body.
  cbn [map snd List.concat]. rewrite fold_left_app, IH by assumption.
  destruct due; reflexivity.
Qed.

Lemma hook_advance (w : World) (ms : nat) :
  timers_clear w ->
  hook (advance w ms)
  = match filter (is_due (now w + ms)) (timers w) with
    | [] => hook w
    | _ :: _ => mkHook (isVisible (hook w)) None None
    end.
Proof.
  intro H. unfold advance. cbn [hook]. apply fire_clear.
  apply Forall_forall. intros x Hx. apply filter_In in Hx.
  unfold timers_clear in H. rewrite Forall_forall in H. now apply H.
Qed.

Lemma isVisible_advance (w : World) (ms : nat) :
  timers_clear w -> isVisible (hook (advance w ms)) = isVisible (hook w).
Proof.
  intro H. rewrite hook_advance by assumption.
  destruct (filter (is_due (now w + ms)) (timers w)); reflexivity.
Qed.




End Invariants.

(* ------------------------------------------------------------------ *)
(** ** Callbacks of one session *)

Section Sessions.

Lemma hostLog_step (w : World) (ev : Event) :
  hostLog (step w ev) = hostLog w ++ invocations (dispatch (hook w) ev).
Proof.
  destruct ev; try apply hostLog_exec.
  cbn. now rewrite app_nil_r.
Qed.

Lemma isVisible_step (w : World) (ev : Event) :
  timers_clear w ->
  isVisible (hook (step w ev))
  = isVisible (fold_left apply_update (updates (dispatch (hook w) ev)) (hook w)).
Proof.
  intro H. destruct ev; try (now rewrite <- hook_exec).
  cbn [step dispatch updates fold_left]. now apply isVisible_advance.
Qed.

(** What a single event can invoke: nothing; or one terminal callback, from
    a visible controller that is hidden afterwards; or [onClose], from the
    mounted component or from a [closeCheckout] whose closure holds
    callbacks. *)
Lemma dispatch_calls (w : World) (ev : Event) :
  invocations (dispatch (hook w) ev) = []
  \/ (exists c, invocations (dispatch (hook w) ev) = [c] /\ is_terminal c = true
        /\ isVisible (hook w) = true
        /\ isVisible (fold_left apply_update (updates (dispatch (hook w) ev))
                        (hook w)) = false)
  \/ (exists c, invocations (dispatch (hook w) ev) = [c] /\ is_terminal c = false
        /\ (isVisible (hook w) = true \/ closes_with_callbacks w ev = true)).
Proof.
  assert (Hclose : forall r',
            invocations (closeCheckout r') = []
            \/ (exists c, invocations (closeCheckout r') = [c]
                  /\ is_terminal c = false /\ callbacks r' <> None)).
  { intros r'. unfold closeCheckout, call_onClose.
    destruct (callbacks r') as [[s f [g|]]|]; cbn; auto.
    right. eexists. repeat split. discriminate. }
  destruct ev as [o c| |data| |url os|ms|r' o c|r'];
    unfold closes_with_callbacks, captured_callbacks; cbn [dispatch].
  - unfold openCheckout. destruct (isVisible (hook w)); now left.
  - destruct (Hclose (hook w)) as [H|(c & H1 & H2 & H3)]; auto.
    right. right. exists c. repeat split; trivial. right.
    destruct (callbacks (hook w)); congruence.
  - destruct (RazorpayUI (hook w)) as [p|] eqn:Hp; [|now left].
    destruct (RazorpayUI_some _ _ Hp) as (o & c & Hr & ->). rewrite Hr.
    unfold handleMessage. cbn [props_onSuccess props_onFailure props_onClose].
    destruct (get_prop (JSON_parse data) "type") as [ty|]; [|now left].
    destruct (is_string ty "PAYMENT_SUCCESS").
    { destruct (get_prop (JSON_parse data) "data"); [|now left].
      right. left. eexists. repeat split. }
    destruct (is_string ty "PAYMENT_FAILED").
    { destruct (get_prop (JSON_parse data) "error") as [e|]; [|now left].
      destruct (get_prop e "error"); [|now left].
      right. left. eexists. repeat split. }
    destruct (is_string ty "PAYMENT_CLOSED"); [|now left].
    destruct (Hclose (mkHook true (Some o) (Some c))) as [H|(x & H1 & H2 & _)]; auto.
    right. right. exists x. repeat split; auto.
  - destruct (RazorpayUI (hook w)) as [p|] eqn:Hp; [|now left].
    destruct (RazorpayUI_some _ _ Hp) as (o & c & Hr & ->). rewrite Hr.
    cbn [props_onClose].
    destruct (Hclose (mkHook true (Some o) (Some c))) as [H|(x & H1 & H2 & _)]; auto.
    right. right. exists x. repeat split; auto.
  - left. destruct (RazorpayUI (hook w)); trivial. apply handleNavigation_effects.
  - now left.
  - unfold openCheckout. destruct (isVisible r'); now left.
  - destruct (Hclose r') as [H|(c & H1 & H2 & H3)]; auto.
    right. right. exists c. repeat split; trivial. right.
    destruct (callbacks r'); congruence.
Qed.

Lemma RazorpayUI_hidden (r : HookState) :
  isVisible r = false -> RazorpayUI r = None.
Proof. unfold RazorpayUI. now intros ->. Qed.

(** A hidden controller stays hidden unless an [openCheckout] is accepted,
    and only a [closeCheckout] whose closure holds callbacks can make it
    invoke anything. *)
Lemma dispatch_hidden (w : World) (ev : Event) :
  isVisible (hook w) = false ->
  accepted_open w ev = false ->
  isVisible (fold_left apply_update (updates (dispatch (hook w) ev)) (hook w))
  = false
  /\ (closes_with_callbacks w ev = false ->
      invocations (dispatch (hook w) ev) = []).
Proof.
  intros Hv Hopen.
  assert (Hclose : forall r',
            isVisible (fold_left apply_update (updates (closeCheckout r')) (hook w))
            = false
            /\ (callbacks r' = None -> invocations (closeCheckout r') = [])).
  { intro r'. unfold closeCheckout, call_onClose.
    destruct (callbacks r') as [[s f [g|]]|]; cbn; split; trivial; discriminate. }
  destruct ev as [o c| |data| |url os|ms|r' o c|r'];
    unfold closes_with_callbacks, captured_callbacks; cbn [dispatch];
    rewrite ?RazorpayUI_hidden by assumption; cbn [updates invocations fold_left];
    auto.
  - cbn in Hopen. rewrite Hv in Hopen. discriminate.
  - destruct (Hclose (hook w)) as [H1 H2]. split; trivial.
    destruct (callbacks (hook w)); [discriminate|auto].
  - cbn in Hopen. unfold openCheckout.
    destruct (isVisible r'); [auto|discriminate].
  - destruct (Hclose r') as [H1 H2]. split; trivial.
    destruct (callbacks r'); [discriminate|auto].
Qed.

Lemma session_cons (w : World) (ev : Event) (evs : list Event) :
  session w (ev :: evs) = [] /\ accepted_open w ev = true
  \/ session w (ev :: evs) = ev :: session (step w ev) evs
     /\ accepted_open w ev = false.
Proof.
  cbn [session]. destruct (accepted_open w ev); auto.
Qed.

Lemma session_log (evs : list Event) : forall w,
  timers_clear w ->
  exists calls,
    hostLog (run w (session w evs)) = hostLog w ++ calls
    /\ List.length (filter is_terminal calls) <= 1
    /\ (isVisible (hook w) = false -> filter is_terminal calls = [])
    /\ (stale_close w (session w evs) = false ->
        filter is_close (after_terminal calls) = []
        /\ (isVisible (hook w) = false -> calls = [])).
Proof.
  induction evs as [|ev evs IH]; intros w Hw.
  { exists []. cbn. rewrite app_nil_r. repeat split; auto. }
  destruct (session_cons w ev evs) as [(-> & _)|(-> & Hnot_open)].
  { exists []. cbn. rewrite app_nil_r. repeat split; auto. }
  destruct (IH (step w ev) (timers_clear_step w ev Hw))
    as (calls & Hlog & Hone & Hhid & Hcl).
  exists (invocations (dispatch (hook w) ev) ++ calls).
  rewrite run_cons, Hlog, hostLog_step, <- app_assoc.
  split; [reflexivity|].
  pose proof (isVisible_step w ev Hw) as Hvis.
  assert (Hstay : isVisible (hook w) = false ->
                  isVisible (hook (step w ev)) = false).
  { intro Hv. rewrite Hvis. now apply dispatch_hidden. }
  cbn [stale_close].
  destruct (dispatch_calls w ev)
    as [Hnil|[(c & Hc & Hterm & Hv & Hafter)|(c & Hc & Hterm & Hor)]].
  - rewrite Hnil. cbn [app].
    split; [exact Hone|]. split; [auto|].
    intros Hno. apply orb_false_elim in Hno. destruct Hno as [_ Hno].
    split; [now apply Hcl|].
    intros Hv. now apply (proj2 (Hcl Hno)), Hstay.
  - rewrite Hc. cbn [app filter after_terminal]. rewrite Hterm.
    assert (Hhidden : isVisible (hook (step w ev)) = false) by congruence.
    rewrite (Hhid Hhidden).
    split; [cbn; lia|]. split; [congruence|].
    intros Hno. apply orb_false_elim in Hno. destruct Hno as [_ Hno].
    split; [|congruence].
    now rewrite (proj2 (Hcl Hno) Hhidden).
  - rewrite Hc. cbn [app filter after_terminal]. rewrite Hterm.
    split; [exact Hone|]. split; [auto|].
    intros Hno. apply orb_false_elim in Hno. destruct Hno as [Hev Hno].
    split; [now apply Hcl|].
    intros Hv. destruct Hor as [Hor|Hor]; [congruence|].
    rewrite Hor, Hv in Hev. discriminate.
Qed.

(** C1, as stated, fails.  The page posts the success message; [onSuccess]
    fires; a [closeCheckout] of the host that follows in the same session,
    before the deferred clear has run, finds the callbacks still stored and
    invokes [onClose]. *)
Lemma onClose_after_terminal_counterexample :
  let w1 := step init (HostOpen demo_options demo_callbacks) in
  script_call PostSuccess demo_payment = Some demo_success_message
  /\ session w1 [Message demo_success_message; HostClose]
     = [Message demo_success_message; HostClose]
  /\ hostLog (run w1 [Message demo_success_message; HostClose])
     = [mkCall SlotSuccess 1 (Some demo_payment); mkCall SlotClose 3 None].
Proof. repeat split. Qed.

(** C1, amended.  A session runs from an accepted [openCheckout] to the
    next accepted one.  In its events at most one of [onSuccess] and
    [onFailure] is invoked.  After it, [onClose] is invoked in that session
    only by a [closeCheckout] whose closure holds callbacks: the one of the
    latest render while the callbacks are still stored (before the deferred
    clear), or one kept from an earlier render that stored callbacks, which
    invokes the [onClose] it holds whenever it is called.  If no such call
    is made while the controller is hidden, no [onClose] follows the
    terminal callback: [cleanup], widget messages, close requests of the
    modal, navigation, timers, and [closeCheckout] closures that hold no
    callbacks do not invoke it. *)
Theorem session_terminal_at_most_once
  (w : World) (open : Event) (evs : list Event) :
  reachable w ->
  accepted_open w open = true ->
  let w1 := step w open in
  (exists calls,
     hostLog (run w1 (session w1 evs)) = hostLog w1 ++ calls
     /\ List.length (filter is_terminal calls) <= 1
     /\ (stale_close w1 (session w1 evs) = false ->
         filter is_close (after_terminal calls) = []))
  /\ (forall w' r cbs f,
        callbacks r = Some cbs -> onClose cbs = Some f ->
        hostLog (step w' (KeptClose r)) = hostLog w' ++ [mkCall SlotClose f None]).
Proof.
  intros Hreach Hv w1. split.
  - assert (Hw1 : timers_clear w1)
      by (apply timers_clear_step; now apply reachable_timers_clear).
    destruct (session_log evs w1 Hw1) as (calls & Hlog & Hone & _ & Hcl).
    exists calls. repeat split; trivial. intro H. now apply Hcl.
  - intros w' r cbs f Hr Hf. rewrite step_kept_close. cbn [hostLog].
    rewrite Hr. unfold close_call. now rewrite Hf.
Qed.

Lemma session_terminal_at_most_once_witness :
  let w1 := step init (HostOpen demo_options demo_callbacks) in
  let evs := [Message demo_success_message; KeptClose (hook init);
              Tick 100; HostClose;
              RequestClose; HostOpen other_options other_callbacks;
              Message demo_success_message] in
  (exists calls,
     hostLog (run w1 (session w1 evs)) = hostLog w1 ++ calls
     /\ List.length (filter is_terminal calls) <= 1
     /\ filter is_close (after_terminal calls) = [])
  /\ hostLog (run w1 [Message demo_success_message; Tick 100;
                      KeptClose (hook w1)])
     = [mkCall SlotSuccess 1 (Some demo_payment); mkCall SlotClose 3 None].
Proof.
  intros w1 evs.
  assert (Hreach : reachable init) by (exists []; reflexivity).
  destruct (session_terminal_at_most_once init
              (HostOpen demo_options demo_callbacks) evs Hreach eq_refl)
    as ((calls & Hlog & Hone & Hcl) & Hkept).
  split.
  - exists calls. split; [exact Hlog|]. split; [exact Hone|].
    apply Hcl. reflexivity.
  - apply (Hkept (run w1 [Message demo_success_message; Tick 100])
             (hook w1) demo_callbacks 3); reflexivity.
Defined.

End Sessions.

(* ------------------------------------------------------------------ *)
(** ** Objects and JSON *)

Section Objects.

Lemma JSON_stringify_object (fields : list (string * jsval)) :
  JSON_stringify (VObj fields) = Some (JObj (stringify_props fields)).
Proof. reflexivity. Qed.

Lemma JSON_parse_object (fields : list (string * json)) :
  JSON_parse (JObj fields) = VObj (parse_props fields).
Proof. reflexivity. Qed.

Lemma lookup_without {A : Type} (k : string) (fields : list (string * A)) :
  lookup k (without k fields) = None.
Proof.
  unfold without. induction fields as [|[k' v] rest IH]; [reflexivity|].
  cbn [filter fst]. destruct (String.eqb k k') eqn:E; cbn [negb]; trivial.
  cbn [lookup]. now rewrite E.
Qed.

Lemma lookup_stringify_props (k : string) (fields : list (string * jsval)) :
  lookup k fields = None -> lookup k (stringify_props fields) = None.
Proof.
  induction fields as [|[k' v] rest IH]; [reflexivity|].
  cbn [lookup stringify_props]. destruct (String.eqb k k') eqn:E; [discriminate|].
  intro H. destruct (JSON_stringify v); auto. cbn [lookup]. rewrite E. auto.
Qed.

Lemma lookup_parse_props (k : string) (fields : list (string * json)) :
  lookup k fields = None -> lookup k (parse_props fields) = None.
Proof.
  induction fields as [|[k' v] rest IH]; [reflexivity|].
  cbn [lookup parse_props]. destruct (String.eqb k k'); [discriminate|auto].
Qed.

Lemma lookup_assign_same {A : Type} (k : string) (v : A) fields :
  lookup k (assign k v fields) = Some v.
Proof.
  induction fields as [|[k' v'] rest IH]; cbn [assign lookup].
  - now rewrite String.eqb_refl.
  - destruct (String.eqb k k') eqn:E; cbn [lookup].
    + now rewrite String.eqb_refl.
    + now rewrite E.
Qed.

Lemma lookup_assign_other {A : Type} (k k' : string) (v : A) fields :
  String.eqb k k' = false ->
  lookup k (assign k' v fields) = lookup k fields.
Proof.
  intro E. induction fields as [|[k0 v0] rest IH]; cbn [assign lookup].
  - now rewrite E.
  - destruct (String.eqb k' k0) eqn:E0; cbn [lookup].
    + apply String.eqb_eq in E0. subst k0. now rewrite E.
    + now rewrite IH.
Qed.

End Objects.

(* ------------------------------------------------------------------ *)
(** ** The page script and the result handler *)

Section Bridge.

Lemma optionsString_object (options : RazorpayOptions) :
  optionsString options
  = Some (JObj (stringify_props (optionsWithoutHandler options))).
Proof. apply JSON_stringify_object. Qed.

(** What holds of the handler for every options object: the object that is
    serialized has no [handler], the text injected into the page is an object
    literal without a [handler] member, and whenever the page script runs,
    the object the widget is constructed with carries as [handler] the
    function of the page script that posts PAYMENT_SUCCESS. *)
Lemma host_handler_is_replaced (options : RazorpayOptions) :
  lookup "handler" (optionsWithoutHandler options) = None
  /\ (exists members,
        optionsString options = Some (JObj members)
        /\ lookup "handler" members = None)
  /\ (forall widget_options,
        script_options options = Some widget_options ->
        lookup "handler" widget_options = Some (VFun PostSuccess)).
Proof.
  assert (H : lookup "handler" (optionsWithoutHandler options) = None)
    by apply lookup_without.
  split; [exact H|]. split.
  - eexists. split; [apply optionsString_object|].
    now apply lookup_stringify_props.
  - intro widget_options. unfold script_options. rewrite optionsString_object.
    destruct (script_intact _); [|discriminate]. intros [= <-].
    rewrite lookup_assign_other by reflexivity. apply lookup_assign_same.
Qed.

(** C9 on the code.  The text of [injected_options] is pasted into the
    inline script as it is; its string [</script>] is where the WebView ends
    the script element.  The script the WebView reads stops inside the
    options text, before [options.handler] is assigned and before the widget
    is constructed, so no handler of the Bridge is installed.  The first half
    of the claim holds: the serialized text has no [handler]. *)
Theorem script_cut_by_options_text :
  let cut := String.append script_head (String.substring 0 33 injected_text) in
  option_map JSON_text (optionsString injected_options) = Some injected_text
  /\ lookup "handler" (optionsWithoutHandler injected_options) = None
  /\ script_intact injected_text = false
  /\ delivered_script injected_text = Some cut
  /\ String.index 0 "options.handler" (inline_script injected_text) = Some 184
  /\ String.index 0 "options.handler" cut = None
  /\ String.index 0 "new Razorpay" cut = None
  /\ script_options injected_options = None.
Proof. vm_compute. repeat split. Qed.

(** The options of the examples reach the widget. *)
Example script_options_demo :
  script_options (("handler", VFun (HostFn 9)) :: demo_options)
  = Some (demo_options
            ++ [("handler", VFun PostSuccess);
                ("modal", VObj [("ondismiss", VFun PostClosed)])])
  /\ optionsString (("handler", VStr "alert(1)") :: demo_options)
     = optionsString demo_options.
Proof. split; vm_compute; reflexivity. Qed.

(** The page posts [response.error]; [handleMessage] passes [message.error]
    on; the wrapper in [RazorpayUI] reads [.error] of that once more.  For
    every error object without an [error] property of its own the host
    therefore receives [undefined]. *)
Lemma onFailure_argument (w : World) options cbs (response : jsval)
  (members : list (string * jsval)) :
  hook w = mkHook true (Some options) (Some cbs) ->
  get_prop response "error" = Some (VObj members) ->
  lookup "error" members = None ->
  exists data,
    script_call PostFailed response = Some data
    /\ hostLog (step w (Message data))
       = hostLog w ++ [mkCall SlotFailure (onFailure cbs) (Some VUndefined)].
Proof.
  intros H Hresp Hmem.
  unfold script_call. rewrite Hresp, JSON_stringify_object.
  cbn [stringify_props]. rewrite JSON_stringify_object. cbn [JSON_stringify].
  eexists. split; [reflexivity|].
  rewrite hostLog_step, H. cbn [dispatch]. rewrite RazorpayUI_active.
  unfold handleMessage. rewrite JSON_parse_object.
  cbn [parse_props get_prop lookup String.eqb Ascii.eqb Bool.eqb is_string
       props_onFailure].
  rewrite JSON_parse_object. cbn [get_prop].
  rewrite (lookup_parse_props _ _ (lookup_stringify_props _ _ Hmem)).
  reflexivity.
Qed.

(** C2 on the code: the widget reports the failure [demo_failure], whose
    error object is [demo_error]; the host's [onFailure] is invoked once, and
    its argument is [undefined], not the error object. *)
Theorem onFailure_receives_undefined :
  let w := step init (HostOpen demo_options demo_callbacks) in
  get_prop demo_failure "error" = Some demo_error
  /\ script_call PostFailed demo_failure = Some demo_failure_message
  /\ hostLog (step w (Message demo_failure_message))
     = [mkCall SlotFailure 2 (Some VUndefined)]
  /\ VUndefined <> demo_error.
Proof. cbn zeta. repeat split. discriminate. Qed.

(** The success path forwards the payload once. *)
Example onSuccess_receives_payload :
  hostLog (run init [HostOpen demo_options demo_callbacks;
                     Message demo_success_message])
  = [mkCall SlotSuccess 1 (Some demo_payment)].
Proof. reflexivity. Qed.

End Bridge.

(* ------------------------------------------------------------------ *)
(** ** Navigation *)

Section Navigation.

Lemma scheme_split (url : string) : forall s,
  Spec.scheme url = Some s ->
  exists rest, url = String.append s (String ":"%char rest).
Proof.
  induction url as [|c url IH]; intros s; cbn [Spec.scheme]; [discriminate|].
  destruct (Ascii.eqb c ":"%char) eqn:E.
  - intro H. injection H as <-. apply Ascii.eqb_eq in E. subst c. now exists url.
  - destruct (Spec.scheme url) as [s'|]; [|discriminate].
    intro H. injection H as <-. destruct (IH s' eq_refl) as [rest ->].
    now exists rest.
Qed.

Lemma web_scheme_startsWith_http (url : string) :
  Spec.web_scheme url = true -> startsWith url "http" = true.
Proof.
  unfold Spec.web_scheme. destruct (Spec.scheme url) as [s|] eqn:Hs; [|discriminate].
  destruct (scheme_split url s Hs) as [rest ->]. intro H.
  apply orb_prop in H. destruct H as [H|H]; apply String.eqb_eq in H; subst s;
    reflexivity.
Qed.

(** X12.  The second half of the navigation rule holds: a URL whose scheme
    is http or https is loaded, and nothing is dispatched. *)
Lemma handleNavigation_web_scheme (os : string -> Promise) (url : string) :
  Spec.web_scheme url = true -> handleNavigation os url = load_normally.
Proof.
  intro H. unfold handleNavigation.
  now rewrite (web_scheme_startsWith_http url H).
Qed.

(** What the code decides on: a URL that starts with neither "http" nor
    "about:blank" is refused and handed to [Linking.openURL]. *)
Lemma handleNavigation_dispatch (os : string -> Promise) (url : string) :
  startsWith url "http" = false ->
  startsWith url "about:blank" = false ->
  nav_load (handleNavigation os url) = false
  /\ exists logged, nav_effects (handleNavigation os url) = OpenURL url :: logged.
Proof.
  intros H1 H2. unfold handleNavigation.
  assert (H3 : startsWith url "https" = false).
  { unfold startsWith in *. destruct (String.prefix "https" url) eqn:E; trivial.
    apply String.prefix_correct in E. cbn in E.
    destruct url as [|a [|b [|c [|d [|e url]]]]]; cbn in E; try discriminate.
    injection E as -> -> -> -> ->. discriminate. }
  rewrite H1, H2, H3. cbn. destruct (os url); cbn; eauto.
Qed.

Example handleNavigation_upi :
  handleNavigation (fun _ => Resolved) "upi://pay?pa=shop@bank&am=5"
  = {| nav_load := false;
       nav_effects := [OpenURL "upi://pay?pa=shop@bank&am=5"];
       nav_promise := Resolved |}
  /\ handleNavigation (fun _ => Resolved) "https://checkout.example.com/v1"
     = load_normally.
Proof. split; reflexivity. Qed.

(** C7 on the code: the scheme of "httpx://pay" is neither http nor https
    and the URL is not the blank page, yet it starts with "http", so it is
    loaded in the WebView and never handed to [Linking.openURL]. *)
Theorem handleNavigation_http_prefix_is_loaded :
  Spec.scheme "httpx://pay" = Some "httpx"
  /\ Spec.web_scheme "httpx://pay" = false
  /\ Spec.blank_page "httpx://pay" = false
  /\ forall os, handleNavigation os "httpx://pay" = load_normally.
Proof. repeat split. Qed.

(** C8.  Whatever the URL and whatever the operating system answers, a
    navigation request returns a value, leaves no rejected promise behind,
    invokes no host callback, calls no state setter and schedules nothing:
    state cells, pending timers and the log of host callbacks are untouched.
    When the URL was dispatched and the dispatch is rejected with [err], the
    only trace is the line written by [console.error]. *)
Theorem dispatch_failure_is_swallowed (w : World) (url err : string) :
  let result := handleNavigation (fun _ => Rejected err) url in
  let w' := step w (Navigate url (Rejected err)) in
  nav_promise result = Resolved
  /\ invocations (nav_effects result) = []
  /\ updates (nav_effects result) = []
  /\ hook w' = hook w
  /\ hostLog w' = hostLog w
  /\ timers w' = timers w
  /\ (nav_load result = false ->
      nav_effects result
      = [OpenURL url; ConsoleError (String.append "Couldn't open UPI app " err)]
      /\ (mounted w = true ->
          opened w' = opened w ++ [url]
          /\ console w'
             = console w ++ [String.append "Couldn't open UPI app " err])).
Proof.
  intros result w'.
  destruct (handleNavigation_effects (fun _ => Rejected err) url)
    as (_ & Hinv & Hupd & Hsched).
  fold result in Hinv, Hupd, Hsched.
  assert (Hw' : w' = w \/ w' = exec w (nav_effects result)).
  { unfold w', step, dispatch. destruct (RazorpayUI (hook w)); auto. }
  split.
  { unfold result, handleNavigation.
    destruct (negb (startsWith url "http") && negb (startsWith url "https")
              && negb (startsWith url "about:blank")); reflexivity. }
  split; [exact Hinv|]. split; [exact Hupd|].
  split.
  { destruct Hw' as [->| ->]; trivial. now rewrite hook_exec, Hupd. }
  split.
  { destruct Hw' as [->| ->]; trivial.
    now rewrite hostLog_exec, Hinv, app_nil_r. }
  split.
  { destruct Hw' as [->| ->]; trivial.
    now rewrite timers_exec, Hsched, app_nil_r. }
  intro Hload.
  assert (Heff : nav_effects result
                 = [OpenURL url;
                    ConsoleError (String.append "Couldn't open UPI app " err)]).
  { revert Hload. unfold result, handleNavigation.
    destruct (negb (startsWith url "http") && negb (startsWith url "https")
              && negb (startsWith url "about:blank")); [reflexivity|discriminate]. }
  split; [exact Heff|].
  intro Hm. unfold w', step, dispatch, mounted in *.
  destruct (RazorpayUI (hook w)); [|discriminate].
  fold result. rewrite Heff. split; reflexivity.
Qed.

Lemma dispatch_failure_is_swallowed_witness :
  let w := step init (HostOpen demo_options demo_callbacks) in
  let w' := step w (Navigate "upi://pay" (Rejected "no app")) in
  hook w' = hook w
  /\ hostLog w' = hostLog w
  /\ timers w' = timers w
  /\ opened w' = ["upi://pay"]
  /\ console w' = ["Couldn't open UPI app no app"].
Proof.
  intros w w'.
  destruct (dispatch_failure_is_swallowed w "upi://pay" "no app")
    as (_ & _ & _ & Hhook & Hlog & Htimers & Hdispatched).
  destruct (Hdispatched eq_refl) as (_ & Hmounted).
  destruct (Hmounted eq_refl) as (Hopened & Hconsole).
  repeat split; assumption.
Defined.

End Navigation.

(* ------------------------------------------------------------------ *)
(** ** Values that cross the WebView boundary *)

Section Serialization.

(** A value read from JSON text serializes back to that text. *)
Lemma JSON_stringify_parse : forall j, JSON_stringify (JSON_parse j) = Some j.
Proof.
  fix IH 1. intros [ | b | n | s | items | fields]; try reflexivity.
  - cbn [JSON_parse JSON_stringify]. do 2 f_equal.
    induction items as [|x items IHitems]; [reflexivity|].
    cbn [map]. now rewrite IH, IHitems.
  - rewrite JSON_parse_object, JSON_stringify_object. do 2 f_equal.
    induction fields as [|[k x] fields IHfields]; [reflexivity|].
    cbn [parse_props stringify_props]. now rewrite IH, IHfields.
Qed.

Lemma host_free_object (fields : list (string * jsval)) :
  host_free (VObj fields) = host_free_props fields.
Proof. reflexivity. Qed.

Lemma literal_value_object (fields : list (string * json)) :
  literal_value (JObj fields) = VObj (literal_props fields).
Proof. reflexivity. Qed.

(** A value written as a literal of JSON text contains no function. *)
Lemma host_free_literal : forall j, host_free (literal_value j) = true.
Proof.
  fix IH 1. intros [ | b | n | s | items | fields]; try reflexivity.
  - cbn [literal_value host_free].
    induction items as [|x items IHitems]; [reflexivity|].
    cbn [map forallb]. now rewrite IH, IHitems.
  - rewrite literal_value_object, host_free_object.
    induction fields as [|[k x] fields IHfields]; [reflexivity|].
    cbn [literal_props]. destruct (String.eqb k "__proto__"); trivial.
    cbn [host_free_props]. now rewrite IH, IHfields.
Qed.


Lemma host_free_assign (k : string) (v : jsval) fields :
  host_free v = true -> host_free_props fields = true ->
  host_free_props (assign k v fields) = true.
Proof.
  intros Hv. induction fields as [|[k' v'] rest IH]; cbn [assign host_free_props].
  - now rewrite Hv.
  - intro H. apply andb_prop in H. destruct H as [H1 H2].
    destruct (String.eqb k k'); cbn [host_free_props].
    + now rewrite Hv, H2.
    + now rewrite H1, IH.
Qed.

End Serialization.

(* ------------------------------------------------------------------ *)
(** ** More on the page script and on [handleMessage] *)

Section BridgeMore.

(** X1.  The success path is lossless.  When the widget calls the page's
    handler with a response that is JSON data, the message it posts, once
    delivered to the mounted component, invokes the host's [onSuccess]
    exactly once with that same response, hides the controller, keeps
    options and callbacks stored and schedules the clear 100 ms later;
    nothing else changes. *)
Theorem onSuccess_receives_response (w : World) options cbs (payload : json) :
  hook w = mkHook true (Some options) (Some cbs) ->
  exists data,
    script_call PostSuccess (JSON_parse payload) = Some data
    /\ step w (Message data)
       = mkWorld (mkHook false (Some options) (Some cbs))
           (timers w ++ [(now w + 100, clear)]) (now w)
           (hostLog w
              ++ [mkCall SlotSuccess (onSuccess cbs) (Some (JSON_parse payload))])
           (opened w) (console w).
Proof.
  intro H. unfold script_call. rewrite JSON_stringify_object.
  cbn [stringify_props]. rewrite JSON_stringify_parse. cbn [JSON_stringify].
  eexists. split; [reflexivity|].
  destruct w as [h ts t l u e]. cbn [hook] in H. subst h.
  unfold step, dispatch. cbn [hook]. rewrite RazorpayUI_active.
  unfold handleMessage. rewrite JSON_parse_object. reflexivity.
Qed.

Lemma onSuccess_receives_response_witness :
  exists data,
    script_call PostSuccess demo_payment = Some data
    /\ hostLog (step (step init (HostOpen demo_options demo_callbacks))
                  (Message data))
       = [mkCall SlotSuccess 1 (Some demo_payment)].
Proof.
  destruct (onSuccess_receives_response
              (step init (HostOpen demo_options demo_callbacks))
              demo_options demo_callbacks
              (JObj [("razorpay_payment_id", JStr "p1");
                     ("razorpay_order_id", JStr "o1");
                     ("razorpay_signature", JStr "sig")]) eq_refl)
    as (data & Hpost & Hstep).
  exists data. split; [exact Hpost|]. now rewrite Hstep.
Defined.





(** X3.  Whenever the page script runs, no function of the host is in the
    object the widget is constructed with, at any depth: its only functions
    are the two the page script creates. *)
Theorem script_options_host_free (options : RazorpayOptions) widget_options :
  script_options options = Some widget_options ->
  host_free (VObj widget_options) = true.
Proof.
  unfold script_options. rewrite optionsString_object.
  destruct (script_intact _); [|discriminate].
  intros [= <-]. rewrite host_free_object.
  apply host_free_assign; [reflexivity|].
  apply host_free_assign; [reflexivity|].
  rewrite <- host_free_object, <- literal_value_object. apply host_free_literal.
Qed.

Lemma script_options_host_free_witness :
  let options :=
    [("key", VStr "k1");
     ("handler", VFun (HostFn 9));
     ("modal", VObj [("ondismiss", VFun (HostFn 8)); ("confirm_close", VBool true)]);
     ("notes", VObj [("callback", VFun (HostFn 7)); ("order", VStr "o1")])] in
  host_free (VObj options) = false
  /\ host_free
       (VObj [("key", VStr "k1");
              ("modal", VObj [("ondismiss", VFun PostClosed)]);
              ("notes", VObj [("order", VStr "o1")]);
              ("handler", VFun PostSuccess)]) = true.
Proof.
  intro options. split; [reflexivity|].
  apply (script_options_host_free options). vm_compute. reflexivity.
Defined.

End BridgeMore.

(* ------------------------------------------------------------------ *)
(** ** Which events reach the host *)

Section Routing.

(** X4.  A message whose [type] is none of PAYMENT_SUCCESS, PAYMENT_FAILED
    and PAYMENT_CLOSED (compared exactly, as strings) changes nothing at
    all: no callback, no state change, no timer. *)
Theorem unknown_message_ignored (w : World) (data : json) (type : jsval) :
  get_prop (JSON_parse data) "type" = Some type ->
  is_string type "PAYMENT_SUCCESS" = false ->
  is_string type "PAYMENT_FAILED" = false ->
  is_string type "PAYMENT_CLOSED" = false ->
  step w (Message data) = w.
Proof.
  intros Hty Hs Hf Hc. unfold step, dispatch.
  destruct (RazorpayUI (hook w)); [|reflexivity].
  unfold handleMessage. rewrite Hty, Hs, Hf, Hc. reflexivity.
Qed.

Lemma unknown_message_ignored_witness :
  let w := step init (HostOpen demo_options demo_callbacks) in
  step w (Message (JObj [("type", JStr "READY")])) = w
  /\ step w (Message (JObj [("type", JStr "payment_success");
                            ("data", JStr "x")])) = w
  /\ step w (Message (JArr [JStr "PAYMENT_SUCCESS"])) = w.
Proof.
  intro w. split; [|split].
  - apply (unknown_message_ignored w _ (VStr "READY")); reflexivity.
  - apply (unknown_message_ignored w _ (VStr "payment_success")); reflexivity.
  - apply (unknown_message_ignored w _ VUndefined); reflexivity.
Defined.

(** X5.  A [payment.failed] event whose response has no error object (the
    property is missing or [null]) never reaches the host: the page still
    posts a PAYMENT_FAILED message, but the wrapper of [RazorpayUI] throws
    on reading [.error] of it before calling [onFailure] or [cleanup], so the
    checkout stays as it was. *)
Theorem payment_failed_without_error (w : World) (response : jsval) :
  get_prop response "error" = Some VUndefined
  \/ get_prop response "error" = Some VNull ->
  exists data,
    script_call PostFailed response = Some data
    /\ get_prop (JSON_parse data) "type" = Some (VStr "PAYMENT_FAILED")
    /\ step w (Message data) = w.
Proof.
  intros [H|H]; unfold script_call; rewrite H;
    (eexists; split; [reflexivity|]; split; [reflexivity|]);
    unfold step, dispatch;
    (destruct (RazorpayUI (hook w)) as [p|] eqn:Hp; [|reflexivity]);
    destruct (RazorpayUI_some _ _ Hp) as (o & c & _ & ->); reflexivity.
Qed.

Lemma payment_failed_without_error_witness :
  let w := step init (HostOpen demo_options demo_callbacks) in
  exists data,
    script_call PostFailed (VObj [("reason", VStr "timeout")]) = Some data
    /\ step w (Message data) = w
    /\ mounted w = true.
Proof.
  intro w.
  destruct (payment_failed_without_error w (VObj [("reason", VStr "timeout")])
              (or_introl eq_refl)) as (data & Hpost & _ & Hstep).
  exists data. split; [exact Hpost|]. split; [exact Hstep|reflexivity].
Defined.

(** X16.  [handleMessage] does not validate a success message: any message
    whose [type] is PAYMENT_SUCCESS, delivered to the mounted component,
    invokes [onSuccess] once with whatever its [data] member is ([undefined]
    when there is none) and ends the session through [cleanup]. *)
Theorem success_message_not_validated (w : World) options cbs (data : json) :
  hook w = mkHook true (Some options) (Some cbs) ->
  get_prop (JSON_parse data) "type" = Some (VStr "PAYMENT_SUCCESS") ->
  exists payload,
    get_prop (JSON_parse data) "data" = Some payload
    /\ step w (Message data)
       = mkWorld (mkHook false (Some options) (Some cbs))
           (timers w ++ [(now w + 100, clear)]) (now w)
           (hostLog w ++ [mkCall SlotSuccess (onSuccess cbs) (Some payload)])
           (opened w) (console w).
Proof.
  intros H Hty.
  destruct (get_prop (JSON_parse data) "data") as [payload|] eqn:Hd.
  - exists payload. split; [reflexivity|].
    destruct w as [h ts t l u e]. cbn [hook] in H. subst h.
    unfold step, dispatch. cbn [hook]. rewrite RazorpayUI_active.
    unfold handleMessage. rewrite Hty, Hd. reflexivity.
  - unfold get_prop in Hty, Hd.
    destruct (JSON_parse data); discriminate.
Qed.

Lemma success_message_not_validated_witness :
  let w := step init (HostOpen demo_options demo_callbacks) in
  hostLog (step w (Message (JObj [("type", JStr "PAYMENT_SUCCESS")])))
  = [mkCall SlotSuccess 1 (Some VUndefined)]
  /\ isVisible (hook (step w (Message (JObj [("type", JStr "PAYMENT_SUCCESS")]))))
     = false.
Proof.
  intro w.
  destruct (success_message_not_validated w demo_options demo_callbacks
              (JObj [("type", JStr "PAYMENT_SUCCESS")]) eq_refl eq_refl)
    as (payload & Hp & Hstep).
  rewrite Hstep. injection Hp as <-. split; reflexivity.
Defined.

(** X6.  The close request of the modal (the hardware back action) does
    exactly what a [closeCheckout] of the host does while the component is
    mounted, and nothing otherwise. *)
Theorem requestClose_is_closeCheckout (w : World) :
  step w RequestClose = if mounted w then step w HostClose else w.
Proof.
  unfold mounted, step, dispatch.
  destruct (RazorpayUI (hook w)) as [p|] eqn:Hp; [|reflexivity].
  destruct (RazorpayUI_some _ _ Hp) as (o & c & _ & ->). reflexivity.
Qed.

(** X7.  One event invokes at most one host callback, and only a function
    of the callbacks held by the closure that handles it, in its own role:
    for a message, a close request of the modal and a call through the
    closures of the latest render these are the callbacks stored at that
    moment (nothing is invoked when none are stored); for a call through a
    kept closure they are the callbacks stored when that closure was
    created. *)
Theorem invoked_callbacks_are_captured (w : World) (ev : Event) :
  exists calls,
    hostLog (step w ev) = hostLog w ++ calls
    /\ List.length calls <= 1
    /\ match captured_callbacks w ev with
       | Some cbs => Forall (belongs cbs) calls
       | None => calls = []
       end.
Proof.
  exists (invocations (dispatch (hook w) ev)).
  split; [apply hostLog_step|].
  assert (Hclose : forall r,
            List.length (invocations (closeCheckout r)) <= 1
            /\ match callbacks r with
               | Some cbs => Forall (belongs cbs) (invocations (closeCheckout r))
               | None => invocations (closeCheckout r) = []
               end).
  { intro r. unfold closeCheckout, call_onClose.
    destruct (callbacks r) as [[s f [g|]]|]; cbn; repeat constructor. }
  assert (Hnil : forall o : option CheckoutCallbacks,
            List.length (@nil HostCall) <= 1
            /\ match o with
               | Some cbs => Forall (belongs cbs) []
               | None => @nil HostCall = []
               end).
  { intros [c|]; repeat constructor. }
  unfold captured_callbacks. generalize (hook w). intro r.
  destruct ev as [o c| |data| |url os|ms|r' o c|r']; cbn [dispatch].
  - unfold openCheckout. destruct (isVisible r); apply Hnil.
  - apply Hclose.
  - destruct (RazorpayUI r) as [p|] eqn:Hp; [|apply Hnil].
    destruct (RazorpayUI_some _ _ Hp) as (o & c & -> & ->).
    unfold handleMessage. cbn [props_onSuccess props_onFailure props_onClose callbacks].
    destruct (get_prop (JSON_parse data) "type") as [ty|]; [|repeat constructor].
    destruct (is_string ty "PAYMENT_SUCCESS").
    { destruct (get_prop (JSON_parse data) "data"); repeat constructor. }
    destruct (is_string ty "PAYMENT_FAILED").
    { destruct (get_prop (JSON_parse data) "error") as [e|]; [|repeat constructor].
      destruct (get_prop e "error"); repeat constructor. }
    destruct (is_string ty "PAYMENT_CLOSED"); [|repeat constructor].
    apply (Hclose (mkHook true (Some o) (Some c))).
  - destruct (RazorpayUI r) as [p|] eqn:Hp; [|apply Hnil].
    destruct (RazorpayUI_some _ _ Hp) as (o & c & -> & ->).
    apply (Hclose (mkHook true (Some o) (Some c))).
  - destruct (RazorpayUI r); [|apply Hnil].
    destruct (handleNavigation_effects (fun _ => os) url) as (_ & -> & _).
    apply Hnil.
  - apply Hnil.
  - unfold openCheckout. destruct (isVisible r'); apply Hnil.
  - apply Hclose.
Qed.

End Routing.

(* ------------------------------------------------------------------ *)
(** ** What the event loop maintains *)

Section WellFormed.

Lemma closeCheckout_shape (r : HookState) :
  updates (closeCheckout r) = [SetIsVisible false]
  /\ forall t, scheduled t (closeCheckout r) = [(t + 100, clear)].
Proof.
  unfold closeCheckout, call_onClose.
  destruct (callbacks r) as [[s f [g|]]|]; split; reflexivity.
Qed.

(** The three shapes of what an event does to cells and timers: nothing;
    hide and schedule one clear; or the three setter calls of an accepted
    [openCheckout]. *)
Lemma dispatch_shape (r : HookState) (ev : Event) :
  (updates (dispatch r ev) = [] /\ forall t, scheduled t (dispatch r ev) = [])
  \/ (updates (dispatch r ev) = [SetIsVisible false]
      /\ forall t, scheduled t (dispatch r ev) = [(t + 100, clear)])
  \/ (exists o c,
        updates (dispatch r ev)
        = [SetCheckoutOptions (Some o); SetCallbacks (Some c); SetIsVisible true]
        /\ forall t, scheduled t (dispatch r ev) = []).
Proof.
  destruct ev as [o c| |data| |url os|ms|r' o c|r']; cbn [dispatch].
  - unfold openCheckout. destruct (isVisible r) eqn:Hv; [now left|].
    right. right. exists o, c. repeat split.
  - right. left. apply closeCheckout_shape.
  - destruct (RazorpayUI r) as [p|] eqn:Hp; [|now left].
    destruct (RazorpayUI_some _ _ Hp) as (o & c & -> & ->).
    unfold handleMessage. cbn [props_onSuccess props_onFailure props_onClose].
    destruct (get_prop (JSON_parse data) "type") as [ty|]; [|now left].
    destruct (is_string ty "PAYMENT_SUCCESS").
    { destruct (get_prop (JSON_parse data) "data"); [|now left].
      right. left. split; reflexivity. }
    destruct (is_string ty "PAYMENT_FAILED").
    { destruct (get_prop (JSON_parse data) "error") as [e|]; [|now left].
      destruct (get_prop e "error"); [|now left].
      right. left. split; reflexivity. }
    destruct (is_string ty "PAYMENT_CLOSED"); [|now left].
    right. left. apply closeCheckout_shape.
  - destruct (RazorpayUI r) as [p|] eqn:Hp; [|now left].
    destruct (RazorpayUI_some _ _ Hp) as (o & c & -> & ->).
    right. left. apply closeCheckout_shape.
  - left. destruct (RazorpayUI r); [|now split].
    destruct (handleNavigation_effects (fun _ => os) url) as (_ & _ & Hu & Hs).
    now split.
  - now left.
  - unfold openCheckout. destruct (isVisible r') eqn:Hv; [now left|].
    right. right. exists o, c. repeat split.
  - right. left. apply closeCheckout_shape.
Qed.

Lemma filter_none {A : Type} (f : A -> bool) (l : list A) :
  filter f l = [] -> filter (fun x => negb (f x)) l = l.
Proof.
  induction l as [|x l IH]; [reflexivity|]. cbn [filter].
  destruct (f x); [discriminate|]. intro H. cbn [negb]. now rewrite IH.
Qed.

Lemma filter_all {A : Type} (f : A -> bool) (l : list A) :
  Forall (fun x => f x = true) l ->
  filter f l = l /\ filter (fun x => negb (f x)) l = [].
Proof.
  induction 1 as [|x l Hx _ [IH1 IH2]]; [now split|].
  cbn [filter]. rewrite Hx. cbn [negb]. now rewrite IH1, IH2.
Qed.

Lemma now_exec (es : list Effect) : forall w, now (exec w es) = now w.
Proof.
  induction es as [|e es IH]; intro w; [reflexivity|].
  change (exec w (e :: es)) with (exec (exec1 w e) es). rewrite IH.
  destruct e; reflexivity.
Qed.

Lemma well_formed_advance (w : World) (ms : nat) :
  well_formed w -> well_formed (advance w ms).
Proof.
  intros [Hc Hd Ht Hp].
  assert (Hc' : timers_clear (advance w ms)) by apply (timers_clear_step w (Tick ms) Hc).
  pose proof (hook_advance w ms Hc) as Hh.
  split; trivial.
  - cbn [advance timers now]. rewrite Forall_forall in *. intros x Hx.
    apply filter_In in Hx. destruct Hx as [Hx _]. specialize (Hd x Hx). lia.
  - rewrite Hh. destruct (filter (is_due (now w + ms)) (timers w)); trivial.
  - rewrite Hh. destruct (filter (is_due (now w + ms)) (timers w)) eqn:Hf.
    + intros Hv Hcb. cbn [advance timers]. rewrite (filter_none _ _ Hf). auto.
    + cbn [callbacks]. congruence.
Qed.

Lemma well_formed_step (w : World) (ev : Event) :
  well_formed w -> well_formed (step w ev).
Proof.
  intro H. destruct (H) as [Hc Hd Ht Hp].
  assert (Hexec : well_formed (exec w (dispatch (hook w) ev))).
  { split.
    - unfold timers_clear. rewrite timers_exec. apply Forall_app. split; trivial.
      apply scheduled_clear, dispatch_schedules_clear.
    - rewrite timers_exec, now_exec. apply Forall_app. split; trivial.
      destruct (dispatch_shape (hook w) ev)
        as [[_ Hs]|[[_ Hs]|(o & c & _ & Hs)]]; rewrite Hs; repeat constructor.
    - rewrite hook_exec.
      destruct (dispatch_shape (hook w) ev)
        as [[Hu _]|[[Hu _]|(o & c & Hu & _)]]; rewrite Hu; trivial.
    - rewrite hook_exec, timers_exec.
      destruct (dispatch_shape (hook w) ev)
        as [[Hu Hs]|[[Hu Hs]|(o & c & Hu & Hs)]]; rewrite Hu, Hs.
      + rewrite app_nil_r. exact Hp.
      + intros _ _ Hnil. apply app_eq_nil in Hnil. destruct Hnil; discriminate.
      + discriminate. }
  destruct ev; trivial. now apply well_formed_advance.
Qed.

End WellFormed.

(* ------------------------------------------------------------------ *)
(** ** Reachable states *)

Section Reachable.

Lemma well_formed_init : well_formed init.
Proof. split; try constructor. intros _ H. now destruct H. Qed.

Lemma well_formed_run (evs : list Event) : forall w,
  well_formed w -> well_formed (run w evs).
Proof.
  induction evs as [|ev evs IH]; intros w H; [exact H|].
  rewrite run_cons. now apply IH, well_formed_step.
Qed.

Lemma well_formed_reachable (w : World) : reachable w -> well_formed w.
Proof. intros [evs <-]. apply well_formed_run, well_formed_init. Qed.

(** X8.  In every state the event loop can reach, options and callbacks
    are stored together or not at all, so that the surface is mounted
    exactly when the controller is visible and callbacks are stored; every
    pending timer is the clearing closure and is due within 100 ms; and a
    hidden controller that still stores callbacks has such a clear pending. *)
Theorem reachable_state_shape (w : World) :
  reachable w ->
  is_some (checkoutOptions (hook w)) = is_some (callbacks (hook w))
  /\ mounted w = isVisible (hook w) && is_some (callbacks (hook w))
  /\ Forall (fun timer => snd timer = clear /\ fst timer <= now w + 100) (timers w)
  /\ (isVisible (hook w) = false -> callbacks (hook w) <> None -> timers w <> []).
Proof.
  intro H. destruct (well_formed_reachable w H) as [Hc Hd Ht Hp].
  split; [exact Ht|]. split; [|split; [|exact Hp]].
  - unfold mounted, RazorpayUI.
    destruct (hook w) as [[|] [o|] [c|]]; cbn in *; congruence.
  - unfold timers_clear in Hc. rewrite Forall_forall in *. auto.
Qed.

Lemma reachable_state_shape_witness :
  let w := run init [HostOpen demo_options demo_callbacks;
                     Message demo_success_message; Tick 30] in
  is_some (checkoutOptions (hook w)) = is_some (callbacks (hook w))
  /\ mounted w = isVisible (hook w) && is_some (callbacks (hook w))
  /\ Forall (fun timer => snd timer = clear /\ fst timer <= now w + 100) (timers w)
  /\ (isVisible (hook w) = false -> callbacks (hook w) <> None -> timers w <> []).
Proof.
  intro w. apply (reachable_state_shape w). eexists. reflexivity.
Defined.

Lemma advance_drains (w : World) (d : nat) :
  well_formed w ->
  100 <= d ->
  timers (advance w d) = []
  /\ (isVisible (hook w) = false ->
      hook (advance w d) = mkHook false None None).
Proof.
  intros [Hc Hdue Ht Hp] Hd.
  assert (Hall : Forall (fun timer => is_due (now w + d) timer = true) (timers w)).
  { rewrite Forall_forall in *. intros x Hx. specialize (Hdue x Hx).
    unfold is_due. apply Nat.leb_le. lia. }
  destruct (filter_all _ _ Hall) as [Hfire Hrest].
  split.
  - cbn [advance timers]. exact Hrest.
  - intro Hv. rewrite hook_advance, Hfire by assumption.
    destruct (timers w) eqn:Hts.
    + destruct (hook w) as [v [o|] [c|]]; cbn in *; subst;
        try discriminate; trivial.
      exfalso. now apply Hp.
    + now rewrite Hv.
Qed.

(** X9.  The deferred clear always completes.  From any reachable state,
    once 100 ms or more pass no timer is left pending; and if the controller
    was hidden, it then stores neither options nor callbacks. *)
Theorem hidden_controller_is_cleared (w : World) (d : nat) :
  reachable w ->
  100 <= d ->
  timers (step w (Tick d)) = []
  /\ (isVisible (hook w) = false ->
      hook (step w (Tick d)) = mkHook false None None).
Proof.
  intros Hr Hd. apply advance_drains; trivial. now apply well_formed_reachable.
Qed.

Lemma hidden_controller_is_cleared_witness :
  let w := run init [HostOpen demo_options demo_callbacks; Tick 7;
                     HostClose; Tick 20; HostClose] in
  isVisible (hook w) = false
  /\ callbacks (hook w) = Some demo_callbacks
  /\ List.length (timers w) = 2
  /\ timers (step w (Tick 100)) = []
  /\ hook (step w (Tick 100)) = mkHook false None None.
Proof.
  intro w.
  assert (Hr : reachable w) by (eexists; reflexivity).
  assert (Hd : 100 <= 100) by lia.
  destruct (hidden_controller_is_cleared w 100 Hr Hd) as [Hts Hh].
  split; [reflexivity|]. split; [reflexivity|]. split; [reflexivity|].
  split; [exact Hts|]. apply Hh. reflexivity.
Defined.

(** X10.  The state left by an [openCheckout] that an older clear has
    emptied (visible, nothing stored) is stuck for everything but two calls.
    No surface is mounted; the [openCheckout] of the latest render, and any
    [openCheckout] kept from a render that was visible, is refused; no
    message, close request of the modal, navigation or passage of time
    changes the cells or reaches the host.  The state is left only by a
    [closeCheckout] (the one of the latest render invokes nothing and
    returns the controller to the empty hidden state) or by an
    [openCheckout] kept from a render that was not visible, which is
    accepted. *)
Theorem visible_but_empty_is_stuck (w : World) :
  reachable w ->
  hook w = mkHook true None None ->
  mounted w = false
  /\ (forall ev, is_close_call ev = false -> accepted_open w ev = false ->
        hook (step w ev) = hook w /\ hostLog (step w ev) = hostLog w)
  /\ (forall o c, accepted_open w (HostOpen o c) = false)
  /\ hook (step w HostClose) = mkHook false None None
  /\ hostLog (step w HostClose) = hostLog w
  /\ (forall r o c, isVisible r = false ->
        hook (step w (KeptOpen r o c)) = mkHook true (Some o) (Some c)).
Proof.
  intros Hr H. pose proof (reachable_timers_clear w Hr) as Hc.
  split; [unfold mounted; now rewrite H|].
  split; [|split; [intros; cbn; now rewrite H|]].
  - intros ev Hev Hopen.
    destruct ev as [o c| |data| |url os|ms|r o c|r]; try discriminate;
      try (unfold step, dispatch; rewrite H; now split).
    + cbn [step]. split; [|reflexivity].
      rewrite hook_advance by assumption. rewrite H.
      destruct (filter (is_due (now w + ms)) (timers w)); reflexivity.
    + cbn in Hopen. unfold step, dispatch, openCheckout.
      destruct (isVisible r); [now split|discriminate].
  - split; [rewrite step_close, H; reflexivity|].
    split; [rewrite step_close, H; cbn; now rewrite app_nil_r|].
    intros r o c Hv. unfold step, dispatch, openCheckout. rewrite Hv.
    rewrite hook_exec, H. reflexivity.
Qed.

Lemma visible_but_empty_is_stuck_witness :
  let w := run init [HostClose; HostOpen demo_options demo_callbacks; Tick 100] in
  mounted w = false
  /\ hook (step w (HostOpen other_options other_callbacks)) = hook w
  /\ hook (step w (Message demo_success_message)) = hook w
  /\ hostLog (step w (Message demo_success_message)) = hostLog w
  /\ hook (step w HostClose) = mkHook false None None
  /\ hook (step w (KeptOpen (hook init) other_options other_callbacks))
     = mkHook true (Some other_options) (Some other_callbacks).
Proof.
  intro w.
  assert (Hr : reachable w) by (eexists; reflexivity).
  destruct (visible_but_empty_is_stuck w Hr eq_refl)
    as (Hm & Hstuck & _ & Hclose & _ & Hkept).
  split; [exact Hm|].
  split; [now apply Hstuck|].
  split; [now apply Hstuck|].
  split; [now apply Hstuck|].
  split; [exact Hclose|]. now apply Hkept.
Defined.

End Reachable.

(* ------------------------------------------------------------------ *)
(** ** More on navigation and on the loading indicator *)

Section NavigationMore.

Lemma startsWith_https_http (url : string) :
  startsWith url "https" = true -> startsWith url "http" = true.
Proof.
  unfold startsWith.
  destruct url as [|a [|b [|c [|d url]]]]; cbn [String.prefix];
    repeat (match goal with
            | |- context [ascii_dec ?x ?y] => destruct (ascii_dec x y)
            end; cbn [String.prefix]);
    try discriminate.
  now destruct url.
Qed.

(** X11.  [handleNavigation] decides on two prefixes only: a URL is loaded
    exactly when it starts with "http" or with "about:blank" (the test for
    "https" never matters).  A loaded URL is never handed to
    [Linking.openURL]; a refused URL is handed to it exactly once, and
    [console.error] is written exactly when that dispatch is rejected.  No
    rejected promise is left behind in either case. *)
Theorem handleNavigation_decision (os : string -> Promise) (url : string) :
  let result := handleNavigation os url in
  nav_load result = startsWith url "http" || startsWith url "about:blank"
  /\ nav_promise result = Resolved
  /\ nav_effects result
     = if nav_load result then []
       else OpenURL url
              :: match os url with
                 | Resolved => []
                 | Rejected err =>
                     [ConsoleError (String.append "Couldn't open UPI app " err)]
                 end.
Proof.
  unfold handleNavigation.
  destruct (startsWith url "http") eqn:H1.
  - cbn. repeat split.
  - destruct (startsWith url "https") eqn:H2.
    { apply startsWith_https_http in H2. congruence. }
    destruct (startsWith url "about:blank"); cbn; [repeat split|].
    destruct (os url); cbn; repeat split.
Qed.

Lemma handleNavigation_web_scheme_witness :
  Spec.scheme "https://checkout.example.com/v1" = Some "https"
  /\ handleNavigation (fun _ => Rejected "no app") "https://checkout.example.com/v1"
     = load_normally.
Proof.
  split; [reflexivity|]. apply handleNavigation_web_scheme. reflexivity.
Defined.

(** X13.  The colour of the loading indicator is the host's
    [theme.color] when that is a truthy value, and "#3399cc" in every other
    case (no theme, theme [null], no colour, empty string); it is never a
    falsy value. *)
Theorem loaderColor_default (options : RazorpayOptions) :
  truthy (loaderColor options) = true
  /\ (lookup "theme" options = None -> loaderColor options = VStr "#3399cc")
  /\ (forall theme,
        lookup "theme" options = Some (VObj theme) ->
        loaderColor options
        = match lookup "color" theme with
          | Some c => if truthy c then c else VStr "#3399cc"
          | None => VStr "#3399cc"
          end).
Proof.
  unfold loaderColor. split; [|split].
  - destruct (lookup "theme" options) as [[ | | b | n | s | f | items | theme]|];
      cbn; trivial.
    destruct (lookup "color" theme) as [c|]; cbn; trivial.
    destruct (truthy c) eqn:E; trivial.
  - now intros ->.
  - intros theme ->. cbn. destruct (lookup "color" theme); reflexivity.
Qed.

End NavigationMore.

(* ------------------------------------------------------------------ *)
(** ** A session that nothing disturbs *)

Section Undisturbed.

Lemma passive_step (w : World) options cbs (ev : Event) :
  hook w = mkHook true (Some options) (Some cbs) ->
  timers w = [] ->
  passive ev = true ->
  hook (step w ev) = hook w
  /\ timers (step w ev) = []
  /\ hostLog (step w ev) = hostLog w.
Proof.
  intros H Hts Hev.
  destruct ev as [o c| |data| |url os|ms|r o c|r]; try discriminate.
  4: { cbn in Hev. unfold step, dispatch, openCheckout. rewrite Hev. auto. }
  - rewrite step_open_visible by now rewrite H. auto.
  - unfold step, dispatch. rewrite H, RazorpayUI_active.
    destruct (handleNavigation_effects (fun _ => os) url) as (_ & Hi & Hu & Hs).
    rewrite hook_exec, timers_exec, hostLog_exec, Hi, Hu, Hs, Hts, H.
    rewrite !app_nil_r. repeat split.
  - cbn [step]. unfold advance. rewrite Hts. auto.
Qed.

Lemma passive_run (options : RazorpayOptions) cbs (evs : list Event) :
  forallb passive evs = true ->
  forall w,
    hook w = mkHook true (Some options) (Some cbs) ->
    timers w = [] ->
    hook (run w evs) = mkHook true (Some options) (Some cbs)
    /\ timers (run w evs) = []
    /\ hostLog (run w evs) = hostLog w.
Proof.
  induction evs as [|ev evs IH]; intros Hevs w H1 H2.
  - cbn [run fold_left]. repeat split; trivial.
  - cbn [forallb] in Hevs. apply andb_prop in Hevs. destruct Hevs as [Hev Hevs].
    destruct (passive_step w options cbs ev H1 H2 Hev) as (Hh & Ht & Hl).
    rewrite run_cons, <- Hl. apply IH; trivial. now rewrite Hh.
Qed.

(** X14.  An accepted [openCheckout] made while no clear is pending mounts
    a session that stays mounted: however much time passes, whatever is
    navigated to and however often [openCheckout] is called again through
    the closure of the latest render or through one kept from a render that
    was visible, options and callbacks remain stored and visible, no timer
    appears and the host is not called.  (An [openCheckout] kept from a
    render that was not visible is not among these events: it replaces the
    request.) *)
Theorem undisturbed_session_stays_mounted
  (w : World) options cbs (evs : list Event) :
  isVisible (hook w) = false ->
  timers w = [] ->
  forallb passive evs = true ->
  let w' := run (step w (HostOpen options cbs)) evs in
  hook w' = mkHook true (Some options) (Some cbs)
  /\ mounted w' = true
  /\ timers w' = []
  /\ hostLog w' = hostLog w.
Proof.
  intros Hv Hts Hevs w'. subst w'.
  rewrite step_open_hidden by assumption.
  destruct (passive_run options cbs evs Hevs
              (set_hook w (mkHook true (Some options) (Some cbs)))
              eq_refl Hts) as (Hh & Ht & Hl).
  repeat split; trivial. unfold mounted. now rewrite Hh.
Qed.

Lemma undisturbed_session_stays_mounted_witness :
  let w' := run (step init (HostOpen demo_options demo_callbacks))
              [Tick 5000; HostOpen other_options other_callbacks;
               KeptOpen (mkHook true (Some demo_options) (Some demo_callbacks))
                 other_options other_callbacks;
               Navigate "upi://pay" (Rejected "no app"); Tick 100] in
  hook w' = mkHook true (Some demo_options) (Some demo_callbacks)
  /\ mounted w' = true
  /\ timers w' = []
  /\ hostLog w' = hostLog init.
Proof.
  apply (undisturbed_session_stays_mounted init demo_options demo_callbacks);
    reflexivity.
Defined.

(** X15.  No older clear can empty a request opened after a pause.  From
    any reachable state in which the controller is hidden, after a pause of
    100 ms or more an [openCheckout] of the latest render is accepted, no
    older clear is left pending, and the session stays mounted with the new
    options and callbacks through any passage of time, navigation and calls
    of [openCheckout] through the closure of the latest render or one kept
    from a render that was visible; the host is not called meanwhile. *)
Theorem reopen_after_pause_is_safe
  (w : World) (d : nat) options cbs (evs : list Event) :
  reachable w ->
  isVisible (hook w) = false ->
  100 <= d ->
  forallb passive evs = true ->
  let w' := run w (Tick d :: HostOpen options cbs :: evs) in
  hook w' = mkHook true (Some options) (Some cbs)
  /\ mounted w' = true
  /\ timers w' = []
  /\ hostLog w' = hostLog w.
Proof.
  intros Hr Hv Hd Hevs w'. subst w'. rewrite !run_cons.
  destruct (advance_drains w d (well_formed_reachable w Hr) Hd) as [Hts Hh].
  specialize (Hh Hv).
  change (step w (Tick d)) with (advance w d).
  rewrite step_open_hidden by now rewrite Hh.
  destruct (passive_run options cbs evs Hevs
              (set_hook (advance w d) (mkHook true (Some options) (Some cbs)))
              eq_refl Hts) as (H1 & H2 & H3).
  repeat split; trivial. unfold mounted. now rewrite H1.
Qed.

Lemma reopen_after_pause_is_safe_witness :
  let w := run init [HostOpen demo_options demo_callbacks; HostClose] in
  let late := run w [Tick 100; HostOpen other_options other_callbacks; Tick 100] in
  let early := run w [Tick 99; HostOpen other_options other_callbacks; Tick 100] in
  (hook late = mkHook true (Some other_options) (Some other_callbacks)
   /\ mounted late = true)
  /\ mounted early = false.
Proof.
  intros w late early.
  assert (Hr : reachable w) by (eexists; reflexivity).
  assert (Hd : 100 <= 100) by lia.
  destruct (reopen_after_pause_is_safe w 100 other_options other_callbacks
              [Tick 100] Hr eq_refl Hd eq_refl) as (Hh & Hm & _ & _).
  split; [split; [exact Hh|exact Hm]|reflexivity].
Defined.

End Undisturbed.
